(** * LiqPay request builder: a shallow embedding and its specification

    The class [LiqPay] of the repository prepares a payment object from the
    caller's payload, validates it, serialises it with [JSON.stringify],
    encodes the text in base64 and signs it with SHA-1.

    Conventions of the model.
    - A JavaScript string is represented by its UTF-8 encoding, as a Rocq
      [string] (a sequence of bytes).  This covers every well-formed string;
      concatenation, emptiness, [Buffer.from(s)] and [sha.update(s)] are then
      the obvious operations on bytes.
    - A JavaScript object is the list of its own enumerable string-keyed
      properties, in the order [[OwnPropertyKeys]] reports them.  Property
      values are primitives (the fields of [IPayload] all are).
    - A number is minus zero, NaN, an infinity, or a finite double other
      than minus zero.  The finite doubles are not built here: the class
      [Doubles] names the operations the program and the reader of its
      output apply to them (the truth value, Number::toString, the reading
      of a number token) with the facts ECMA-262 states of these, and every
      definition and property below is given for every such type, amounts
      with a fraction or an exponent included.  The sample callers use the
      instance [decimals]. *)

From Stdlib Require Import String Ascii List ZArith NArith Lia Bool.
From Stdlib Require Import DecimalString DecimalZ DecimalN.
Import ListNotations.

Local Open Scope list_scope.
Local Open Scope string_scope.

(** ** Characters and strings *)

Definition dquote : ascii := "034"%char.
Definition backslash : ascii := "092"%char.
Definition newline : ascii := "010"%char.

Definition str1 (c : ascii) : string := String c EmptyString.

Fixpoint all_chars (p : ascii -> bool) (s : string) : bool :=
  match s with
  | EmptyString => true
  | String c rest => p c && all_chars p rest
  end.

Definition starts_with (p : ascii -> bool) (s : string) : bool :=
  match s with
  | EmptyString => false
  | String c _ => p c
  end.

Definition is_digit (c : ascii) : bool :=
  (48 <=? N_of_ascii c)%N && (N_of_ascii c <=? 57)%N.

(** ** Numbers *)

(** The characters of a JSON number token, and the ones it can begin with. *)
Definition is_number_char (c : ascii) : bool :=
  is_digit c || Ascii.eqb c "-" || Ascii.eqb c "+" || Ascii.eqb c "."
  || Ascii.eqb c "e" || Ascii.eqb c "E".

Definition is_number_start (c : ascii) : bool :=
  is_digit c || Ascii.eqb c "-".

(** The finite Number values other than minus zero, with what the program
    and a reader of its output do to them.
    - [nonzero] is ToBoolean on them: positive zero is the one falsy value
      (ECMA-262, 7.1.2).
    - [Number_toString] is Number::toString in radix 10 (6.1.6.1.20), which
      prints the shortest digits that identify the double, with a decimal
      point or an exponent where the value asks for one.  Zero prints as
      [0]; every text is made of digits, signs, a point and an exponent
      mark, and begins with a digit or a minus sign.
    - [StringToNumber] is the value [JSON.parse] gives a number token.
      Reading the text of a number gives the number back (Number::toString,
      Note 2). *)
Class Doubles : Type := {
  double : Type;
  zero : double;
  nonzero : double -> bool;
  Number_toString : double -> string;
  StringToNumber : string -> option double;
  nonzero_zero : forall x, nonzero x = false <-> x = zero;
  zero_text : Number_toString zero = "0";
  text_chars : forall x, all_chars is_number_char (Number_toString x) = true;
  text_start : forall x, starts_with is_number_start (Number_toString x) = true;
  text_read : forall x, StringToNumber (Number_toString x) = Some x
}.

Section Values.

Context {D : Doubles}.

(** ** JavaScript values *)

Inductive number : Type :=
| Finite (x : double)
| NegZero
| NaN
| Infinity (negative : bool).

Inductive value : Type :=
| undefined
| null
| Boolean (b : bool)
| Number (n : number)
| Str (s : string).

(** ToBoolean (ECMA-262, 7.1.2). *)
Definition ToBoolean (v : value) : bool :=
  match v with
  | undefined => false
  | null => false
  | Boolean b => b
  | Number (Finite x) => nonzero x
  | Number NegZero => false
  | Number NaN => false
  | Number (Infinity _) => true
  | Str s => negb (String.eqb s EmptyString)
  end.

(** ** Ordinary objects *)

Definition object : Type := list (string * value).

Definition keys (o : object) : list string := map fst o.

Fixpoint lookup (k : string) (o : object) : option value :=
  match o with
  | [] => None
  | (k', v) :: rest => if String.eqb k' k then Some v else lookup k rest
  end.

Definition has_own (k : string) (o : object) : bool :=
  match lookup k o with Some _ => true | None => false end.

(** [o.k]: a key that is not an own property is looked up along the prototype
    chain, where none of the keys this program reads is defined. *)
Definition Get (o : object) (k : string) : value :=
  match lookup k o with
  | Some v => v
  | None => undefined
  end.

Fixpoint digits_value (acc : N) (s : string) : option N :=
  match s with
  | EmptyString => Some acc
  | String c rest =>
      if is_digit c
      then digits_value (10 * acc + (N_of_ascii c - 48))%N rest
      else None
  end.

(** A property key is an array index when it is the canonical decimal form of
    an integer below 2^32 - 1. *)
Definition array_index (k : string) : option N :=
  match k with
  | EmptyString => None
  | String c rest =>
      if Ascii.eqb c "0" && negb (String.eqb rest EmptyString) then None
      else match digits_value 0 k with
           | Some n => if (n <? 4294967295)%N then Some n else None
           | None => None
           end
  end.

Fixpoint replace (k : string) (v : value) (o : object) : object :=
  match o with
  | [] => []
  | (k', v') :: rest =>
      if String.eqb k' k then (k, v) :: rest else (k', v') :: replace k v rest
  end.

(** Where a new array-index key goes: before the first property that is not an
    array index or has a larger index. *)
Fixpoint insert_index (n : N) (k : string) (v : value) (o : object) : object :=
  match o with
  | [] => [(k, v)]
  | (k', v') :: rest =>
      match array_index k' with
      | Some n' =>
          if (n' <? n)%N then (k', v') :: insert_index n k v rest
          else (k, v) :: o
      | None => (k, v) :: o
      end
  end.

(** [o.k = v] on an ordinary object whose prototype is [Object.prototype]:
    an existing property keeps its place; a new array index is placed among
    the indices; any other new key comes last.  Writing [__proto__] runs the
    inherited setter, which creates no own property (and ignores primitives). *)
Definition Set_ (o : object) (k : string) (v : value) : object :=
  if String.eqb k "__proto__" then o
  else if has_own k o then replace k v o
  else match array_index k with
       | Some n => insert_index n k v o
       | None => (o ++ [(k, v)])%list
       end.

(** [Object.assign(target, source)]: every own property of [source], in key
    order, is written to [target]. *)
Definition Object_assign (target source : object) : object :=
  fold_left (fun t kv => Set_ t (fst kv) (snd kv)) source target.

(** ** JSON.stringify *)

Definition hex_digit (n : N) : ascii :=
  if (n <? 10)%N then ascii_of_N (48 + n) else ascii_of_N (87 + n).

(** QuoteJSONString, one character (ECMA-262, 25.5.2.3). *)
Definition quote_char (c : ascii) : string :=
  let n := N_of_ascii c in
  if (n =? 8)%N then "\b"
  else if (n =? 9)%N then "\t"
  else if (n =? 10)%N then "\n"
  else if (n =? 12)%N then "\f"
  else if (n =? 13)%N then "\r"
  else if (n =? 34)%N then String backslash (str1 dquote)
  else if (n =? 92)%N then "\\"
  else if (n <? 32)%N
       then "\u00" ++ String (hex_digit (n / 16)) (str1 (hex_digit (n mod 16)))
       else str1 c.

Fixpoint quote_body (s : string) : string :=
  match s with
  | EmptyString => EmptyString
  | String c rest => quote_char c ++ quote_body rest
  end.

Definition QuoteJSONString (s : string) : string :=
  String dquote (quote_body s ++ str1 dquote).

(** SerializeJSONProperty on a primitive: [None] stands for undefined, which
    makes the property disappear from the text. *)
Definition SerializeJSONProperty (v : value) : option string :=
  match v with
  | undefined => None
  | null => Some "null"
  | Boolean true => Some "true"
  | Boolean false => Some "false"
  | Number (Finite x) => Some (Number_toString x)
  | Number NegZero => Some "0"
  | Number NaN => Some "null"
  | Number (Infinity _) => Some "null"
  | Str s => Some (QuoteJSONString s)
  end.

Fixpoint serialize_members (o : object) : list string :=
  match o with
  | [] => []
  | (k, v) :: rest =>
      match SerializeJSONProperty v with
      | Some text => (QuoteJSONString k ++ ":" ++ text) :: serialize_members rest
      | None => serialize_members rest
      end
  end.

Fixpoint join (sep : string) (parts : list string) : string :=
  match parts with
  | [] => EmptyString
  | [p] => p
  | p :: rest => p ++ sep ++ join sep rest
  end.

(** SerializeJSONObject without indentation. *)
Definition JSON_stringify (o : object) : string :=
  "{" ++ join "," (serialize_members o) ++ "}".

(** ** Buffers and base64 *)

Definition bytes : Type := list N.

(** [Buffer.from(s)]: the UTF-8 bytes of [s]. *)
Definition Buffer_from (s : string) : bytes :=
  map N_of_ascii (list_ascii_of_string s).

Definition base64_alphabet : string :=
  "ABCDEFGHIJKLMNOPQRSTUVWXYZabcdefghijklmnopqrstuvwxyz0123456789+/".

Definition base64_char (n : N) : ascii :=
  match String.get (N.to_nat n) base64_alphabet with
  | Some c => c
  | None => "="%char
  end.

(** [buf.toString('base64')]: three bytes give four characters; a last group
    of one or two bytes is padded with [=]. *)
Fixpoint base64 (b : bytes) : string :=
  match b with
  | [] => EmptyString
  | [x] =>
      String (base64_char (x / 4))
        (String (base64_char ((x mod 4) * 16)) "==")
  | [x; y] =>
      String (base64_char (x / 4))
        (String (base64_char ((x mod 4) * 16 + y / 16))
           (String (base64_char ((y mod 16) * 4)) "="))
  | x :: y :: z :: rest =>
      String (base64_char (x / 4))
        (String (base64_char ((x mod 4) * 16 + y / 16))
           (String (base64_char ((y mod 16) * 4 + z / 64))
              (String (base64_char (z mod 64)) (base64 rest))))
  end%N.

End Values.

(** ** SHA-1 (FIPS 180-4), as [createHash('sha1')] computes it *)

Module SHA1.

Local Open Scope N_scope.

Definition word_mod : N := 4294967296.

Definition add32 (a b : N) : N := (a + b) mod word_mod.

Definition rotl32 (n x : N) : N :=
  N.lor (N.shiftl x n mod word_mod) (N.shiftr x (32 - n)).

Definition not32 (x : N) : N := N.lxor x 4294967295.

Fixpoint be_bytes (count : nat) (x : N) : bytes :=
  match count with
  | O => []
  | S c => (be_bytes c (x / 256) ++ [x mod 256])%list
  end.

(** Padding: a one bit, zeros up to 56 modulo 64, the bit length on 8 bytes. *)
Definition pad (msg : bytes) : bytes :=
  let len := N.of_nat (List.length msg) in
  let zeros := (119 - len mod 64) mod 64 in
  (msg ++ [128] ++ repeat 0 (N.to_nat zeros) ++ be_bytes 8 (8 * len))%list.

Fixpoint be_words (count : nat) (b : bytes) : list N :=
  match count with
  | O => []
  | S c =>
      match b with
      | b0 :: b1 :: b2 :: b3 :: rest =>
          (((b0 * 256 + b1) * 256 + b2) * 256 + b3) :: be_words c rest
      | _ => []
      end
  end.

(** The message schedule: [window] holds the sixteen most recent words,
    oldest first; each step emits the oldest and computes the next one. *)
Fixpoint schedule (count : nat) (window : list N) : list N :=
  match count with
  | O => []
  | S c =>
      let w := fun i => nth i window 0 in
      let next := rotl32 1 (N.lxor (N.lxor (N.lxor (w 13%nat) (w 8%nat)) (w 2%nat)) (w 0%nat)) in
      w 0%nat :: schedule c (tl window ++ [next])%list
  end.

Definition f (t : nat) (b c d : N) : N :=
  if Nat.ltb t 20 then N.lor (N.land b c) (N.land (not32 b) d)
  else if Nat.ltb t 40 then N.lxor (N.lxor b c) d
  else if Nat.ltb t 60 then N.lor (N.lor (N.land b c) (N.land b d)) (N.land c d)
  else N.lxor (N.lxor b c) d.

Definition K (t : nat) : N :=
  if Nat.ltb t 20 then 0x5A827999
  else if Nat.ltb t 40 then 0x6ED9EBA1
  else if Nat.ltb t 60 then 0x8F1BBCDC
  else 0xCA62C1D6.

Record state : Type := State { ha : N; hb : N; hc : N; hd : N; he : N }.

Definition init : state :=
  State 0x67452301 0xEFCDAB89 0x98BADCFE 0x10325476 0xC3D2E1F0.

Fixpoint rounds (t : nat) (ws : list N) (s : state) : state :=
  match ws with
  | [] => s
  | w :: rest =>
      let temp :=
        add32 (add32 (add32 (add32 (rotl32 5 (ha s)) (f t (hb s) (hc s) (hd s)))
                            (he s)) (K t)) w in
      rounds (S t) rest (State temp (ha s) (rotl32 30 (hb s)) (hc s) (hd s))
  end.

Definition compress (h : state) (block : bytes) : state :=
  let r := rounds 0 (schedule 80 (be_words 16 block)) h in
  State (add32 (ha h) (ha r)) (add32 (hb h) (hb r)) (add32 (hc h) (hc r))
        (add32 (hd h) (hd r)) (add32 (he h) (he r)).

Fixpoint blocks (fuel : nat) (h : state) (b : bytes) : state :=
  match fuel with
  | O => h
  | S fuel' =>
      match b with
      | [] => h
      | _ => blocks fuel' (compress h (firstn 64 b)) (skipn 64 b)
      end
  end.

Definition digest (msg : bytes) : bytes :=
  let padded := pad msg in
  let h := blocks (List.length padded) init padded in
  (be_bytes 4 (ha h) ++ be_bytes 4 (hb h) ++ be_bytes 4 (hc h)
     ++ be_bytes 4 (hd h) ++ be_bytes 4 (he h))%list.

End SHA1.

(** ** The class LiqPay *)

(** Modelled from the spec: the enumeration [Language] (./types/Language) is
    not among the sources; the spec says the locale defaults to Ukrainian, for
    which the gateway's language code is [uk]. *)
Definition Language_UA : string := "uk".

Record LiqPay : Type := {
  baseUrl : string;
  imageSrc : string;
  apiVersion : string;
  privateKey : string;
  publicKey : string;
  enableSandbox : bool
}.

(** [new LiqPay(privateKey, publicKey, enableSandbox)]. *)
Definition constructor (privateKey publicKey : string) (enableSandbox : bool)
  : LiqPay :=
  {| baseUrl := "https://www.liqpay.ua/api";
     imageSrc := "//static.liqpay.ua/buttons/p1ru.radius.png";
     apiVersion := "3";
     privateKey := privateKey;
     publicKey := publicKey;
     enableSandbox := enableSandbox |}.

(** [new LiqPay(privateKey, publicKey)]: the sandbox flag defaults to false. *)
Definition constructor_default (privateKey publicKey : string) : LiqPay :=
  constructor privateKey publicKey false.

Inductive exception : Type :=
| TypeError (message : string).

Record ISignature : Type := { data : string; signature : string }.

(** Methods run on the instance [this] and either throw or return; the
    instance they leave behind is part of the outcome. *)
Definition M (A : Type) : Type := LiqPay -> (exception + A) * LiqPay.

Definition ret {A : Type} (a : A) : M A := fun this => (inr a, this).

Definition bind {A B : Type} (m : M A) (k : A -> M B) : M B :=
  fun this =>
    match m this with
    | (inl e, this') => (inl e, this')
    | (inr a, this') => k a this'
    end.

Definition throw {A : Type} (e : exception) : M A := fun this => (inl e, this).

Definition read {A : Type} (field : LiqPay -> A) : M A :=
  fun this => (inr (field this), this).

Definition assign_apiVersion (v : string) : M unit :=
  fun this =>
    (inr tt,
     {| baseUrl := baseUrl this;
        imageSrc := imageSrc this;
        apiVersion := v;
        privateKey := privateKey this;
        publicKey := publicKey this;
        enableSandbox := enableSandbox this |}).

Definition when_ (b : bool) (m : M unit) : M unit := if b then m else ret tt.

Notation "x <- c1 ;; c2" := (bind c1 (fun x => c2))
  (at level 61, c1 at next level, right associativity).
Notation "c1 ;; c2" := (bind c1 (fun _ => c2))
  (at level 61, right associativity).

Section Builder.

Context {D : Doubles}.

Definition setApiVersion (apiVersion : string) : M unit :=
  when_ (negb (ToBoolean (Str apiVersion)))
    (throw (TypeError "API version not specified!")) ;;
  assign_apiVersion apiVersion.

Definition verifyPaymentData (payment : object) : M unit :=
  when_ (negb (ToBoolean (Get payment "version")))
    (throw (TypeError "Version must be specified!")) ;;
  when_ (negb (ToBoolean (Get payment "amount")))
    (throw (TypeError "Amount must be specified!")) ;;
  when_ (negb (ToBoolean (Get payment "currency")))
    (throw (TypeError "Currency must be specified!")) ;;
  when_ (negb (ToBoolean (Get payment "description")))
    (throw (TypeError "Description must be specified!")).

Definition preparePayment (payload : object) : M object :=
  let payment := Object_assign [] payload in
  let payment :=
    if negb (ToBoolean (Get payment "language"))
    then Set_ payment "language" (Str Language_UA)
    else payment in
  sandbox <- read enableSandbox ;;
  let payment :=
    if sandbox then Set_ payment "sandbox" (Str "1") else payment in
  version <- read apiVersion ;;
  let payment := Set_ payment "version" (Str version) in
  public_key <- read publicKey ;;
  let payment := Set_ payment "public_key" (Str public_key) in
  ret payment.

Definition generateData (paymentData : object) : M string :=
  ret (base64 (Buffer_from (JSON_stringify paymentData))).

Definition generateSignature (data : string) : M string :=
  key <- read privateKey ;;
  ret (base64 (SHA1.digest (Buffer_from (key ++ data ++ key)))).

Definition getObjData (payload : object) : M ISignature :=
  payment <- preparePayment payload ;;
  verifyPaymentData payment ;;
  data <- generateData payment ;;
  signature <- generateSignature data ;;
  ret {| data := data; signature := signature |}.

Definition dq : string := str1 dquote.
Definition nl : string := str1 newline.

Definition getHtmlForm (payload : object) : M string :=
  sig <- getObjData payload ;;
  base <- read baseUrl ;;
  version <- read apiVersion ;;
  image <- read imageSrc ;;
  ret (nl
       ++ "            <form method=" ++ dq ++ "POST" ++ dq
       ++ " action=" ++ dq ++ base ++ "/" ++ version ++ "/checkout" ++ dq
       ++ " accept-charset=" ++ dq ++ "utf-8" ++ dq ++ ">" ++ nl
       ++ "                <input type=" ++ dq ++ "hidden" ++ dq
       ++ " name=" ++ dq ++ "data" ++ dq
       ++ " value=" ++ dq ++ data sig ++ dq ++ " />" ++ nl
       ++ "                <input type=" ++ dq ++ "hidden" ++ dq
       ++ " name=" ++ dq ++ "signature" ++ dq
       ++ " value=" ++ dq ++ signature sig ++ dq ++ " />" ++ nl
       ++ "                <input type=" ++ dq ++ "image" ++ dq
       ++ " src=" ++ dq ++ image ++ dq ++ " />" ++ nl
       ++ "            </form>" ++ nl
       ++ "        ").

(** ** Reading a signed request back

    What the receiving side does with [data]: undo base64, read the bytes as
    text and parse the JSON object.  The parser accepts the compact texts
    [JSON.stringify] emits for flat objects and returns the members in the
    order of the text. *)

Definition base64_index (c : ascii) : option N :=
  let n := N_of_ascii c in
  if (65 <=? n)%N && (n <=? 90)%N then Some (n - 65)%N
  else if (97 <=? n)%N && (n <=? 122)%N then Some (n - 71)%N
  else if (48 <=? n)%N && (n <=? 57)%N then Some (n + 4)%N
  else if (n =? 43)%N then Some 62%N
  else if (n =? 47)%N then Some 63%N
  else None.

Fixpoint base64_decode (s : string) : option bytes :=
  match s with
  | EmptyString => Some []
  | String a (String b (String c (String d rest))) =>
      match base64_index a, base64_index b with
      | Some i, Some j =>
          match base64_index c with
          | None =>
              if Ascii.eqb c "=" && Ascii.eqb d "=" && String.eqb rest EmptyString
              then Some [i * 4 + j / 16]%N
              else None
          | Some k =>
              match base64_index d with
              | None =>
                  if Ascii.eqb d "=" && String.eqb rest EmptyString
                  then Some [i * 4 + j / 16; (j mod 16) * 16 + k / 4]%N
                  else None
              | Some l =>
                  match base64_decode rest with
                  | Some tail =>
                      Some ((i * 4 + j / 16) :: ((j mod 16) * 16 + k / 4)
                              :: ((k mod 4) * 64 + l) :: tail)%N
                  | None => None
                  end
              end
          end
      | _, _ => None
      end
  | _ => None
  end.

(** [buf.toString()] on bytes that are the UTF-8 form of a string. *)
Definition Buffer_toString (b : bytes) : string :=
  string_of_list_ascii (map ascii_of_N b).

Fixpoint strip_prefix (p s : string) : option string :=
  match p with
  | EmptyString => Some s
  | String c p' =>
      match s with
      | String c' s' => if Ascii.eqb c c' then strip_prefix p' s' else None
      | EmptyString => None
      end
  end.

Definition hex_value (c : ascii) : option N :=
  let n := N_of_ascii c in
  if (48 <=? n)%N && (n <=? 57)%N then Some (n - 48)%N
  else if (97 <=? n)%N && (n <=? 102)%N then Some (n - 87)%N
  else if (65 <=? n)%N && (n <=? 70)%N then Some (n - 55)%N
  else None.

(** The UTF-8 form of a code point of the basic plane; surrogates have none. *)
Definition utf8_encode (code : N) : option string :=
  if (code <? 128)%N then Some (str1 (ascii_of_N code))
  else if (code <? 2048)%N
  then Some (String (ascii_of_N (192 + code / 64))
               (str1 (ascii_of_N (128 + code mod 64))))
  else if (55296 <=? code)%N && (code <=? 57343)%N then None
  else Some (String (ascii_of_N (224 + code / 4096))
               (String (ascii_of_N (128 + (code / 64) mod 64))
                  (str1 (ascii_of_N (128 + code mod 64))))).

Definition unescape (e : ascii) : option ascii :=
  let n := N_of_ascii e in
  if (n =? 34)%N then Some dquote
  else if (n =? 92)%N then Some backslash
  else if (n =? 47)%N then Some "/"%char
  else if (n =? 98)%N then Some "008"%char
  else if (n =? 102)%N then Some "012"%char
  else if (n =? 110)%N then Some "010"%char
  else if (n =? 114)%N then Some "013"%char
  else if (n =? 116)%N then Some "009"%char
  else None.

Definition prepend (prefix : string) (r : option (string * string))
  : option (string * string) :=
  match r with
  | Some (body, rest) => Some (prefix ++ body, rest)
  | None => None
  end.

(** The characters of a JSON string after its opening quote, up to and
    including the closing quote: the string denoted and the text left. *)
Fixpoint parse_string_body (s : string) : option (string * string) :=
  match s with
  | EmptyString => None
  | String c rest =>
      if Ascii.eqb c dquote then Some (EmptyString, rest)
      else if Ascii.eqb c backslash then
        match rest with
        | EmptyString => None
        | String e rest' =>
            if Ascii.eqb e "u" then
              match rest' with
              | String h1 (String h2 (String h3 (String h4 rest''))) =>
                  match hex_value h1, hex_value h2, hex_value h3, hex_value h4 with
                  | Some d1, Some d2, Some d3, Some d4 =>
                      match utf8_encode (((d1 * 16 + d2) * 16 + d3) * 16 + d4)%N with
                      | Some u => prepend u (parse_string_body rest'')
                      | None => None
                      end
                  | _, _, _, _ => None
                  end
              | _ => None
              end
            else
              match unescape e with
              | Some c' => prepend (str1 c') (parse_string_body rest')
              | None => None
              end
        end
      else if (N_of_ascii c <? 32)%N then None
      else prepend (str1 c) (parse_string_body rest)
  end.

(** A number token runs as far as the characters of a number go. *)
Fixpoint span_number (s : string) : string * string :=
  match s with
  | EmptyString => (EmptyString, EmptyString)
  | String c rest =>
      if is_number_char c
      then let (num, rest') := span_number rest in (String c num, rest')
      else (EmptyString, s)
  end.

(** A value: a string, one of the three literals, or a number token, whose
    value is the one [StringToNumber] gives it. *)
Definition parse_value (s : string) : option (value * string) :=
  match s with
  | EmptyString => None
  | String c rest =>
      if Ascii.eqb c dquote then
        match parse_string_body rest with
        | Some (body, rest') => Some (Str body, rest')
        | None => None
        end
      else
        match strip_prefix "null" s, strip_prefix "true" s, strip_prefix "false" s with
        | Some rest', _, _ => Some (null, rest')
        | _, Some rest', _ => Some (Boolean true, rest')
        | _, _, Some rest' => Some (Boolean false, rest')
        | None, None, None =>
            if is_number_start c then
              let (num, rest') := span_number s in
              match StringToNumber num with
              | Some x => Some (Number (Finite x), rest')
              | None => None
              end
            else None
        end
  end.

Definition parse_member (s : string) : option ((string * value) * string) :=
  match s with
  | String c rest =>
      if Ascii.eqb c dquote then
        match parse_string_body rest with
        | Some (k, String colon rest') =>
            if Ascii.eqb colon ":" then
              match parse_value rest' with
              | Some (v, rest'') => Some ((k, v), rest'')
              | None => None
              end
            else None
        | _ => None
        end
      else None
  | EmptyString => None
  end.

(** Members up to the closing brace, which must end the text.  Each member
    consumes at least one character, so the length of the text is enough fuel. *)
Fixpoint parse_members (fuel : nat) (s : string) : option object :=
  match fuel with
  | O => None
  | S fuel' =>
      match parse_member s with
      | Some (m, String c rest) =>
          if Ascii.eqb c "}" then
            if String.eqb rest EmptyString then Some [m] else None
          else if Ascii.eqb c "," then
            match parse_members fuel' rest with
            | Some ms => Some (m :: ms)
            | None => None
            end
          else None
      | _ => None
      end
  end.

Definition JSON_members (text : string) : option object :=
  match text with
  | String c rest =>
      if Ascii.eqb c "{" then
        if String.eqb rest "}" then Some []
        else parse_members (String.length rest) rest
      else None
  | EmptyString => None
  end.

(** The members of the object that [data] encodes. *)
Definition decode (data : string) : option object :=
  match base64_decode data with
  | Some b => JSON_members (Buffer_toString b)
  | None => None
  end.

(** What a JSON text keeps of a value: undefined properties are dropped,
    the non-finite numbers read back as null and minus zero as zero. *)
Definition json_value (v : value) : option value :=
  match v with
  | undefined => None
  | Number NegZero => Some (Number (Finite zero))
  | Number NaN => Some null
  | Number (Infinity _) => Some null
  | _ => Some v
  end.

Fixpoint json_image (o : object) : object :=
  match o with
  | [] => []
  | (k, v) :: rest =>
      match json_value v with
      | Some v' => (k, v') :: json_image rest
      | None => json_image rest
      end
  end.

(** ** Callers and instances *)

(** The interface [IPayload], and the object a caller gets by writing its
    fields in the order of the declaration.  The enumerations [Action],
    [Currency] and [Language] are declared outside the sources at hand; the
    record takes any string for them. *)
Record IPayload : Type := {
  action : string;
  amount : number;
  currency : string;
  description : string;
  order_id : string;
  language : option string
}.

Definition literal (p : IPayload) : object :=
  ([("action", Str (action p)); ("amount", Number (amount p));
    ("currency", Str (currency p)); ("description", Str (description p));
    ("order_id", Str (order_id p))]
   ++ match language p with
      | Some l => [("language", Str l)]
      | None => []
      end)%list.

(** A list of properties is an object when no key occurs twice. *)
Definition is_object (o : object) : Prop := NoDup (keys o).

(** The payment object this instance prepares from a payload. *)
Definition payment_of (payload : object) (this : LiqPay) : object :=
  match fst (preparePayment payload this) with
  | inr payment => payment
  | inl _ => []
  end.

(** The text the signature is the digest of. *)
Definition signed_text (this : LiqPay) (data : string) : string :=
  privateKey this ++ data ++ privateKey this.

(** The payload passes validation on this instance. *)
Definition valid (payload : object) (this : LiqPay) : bool :=
  match (payment <- preparePayment payload ;; verifyPaymentData payment) this with
  | (inr _, _) => true
  | (inl _, _) => false
  end.

(** The public operations of the class, and the instances a program can hold:
    a constructed one, after any calls. *)
Inductive call : Type :=
| call_setApiVersion (apiVersion : string)
| call_getHtmlForm (payload : object)
| call_getObjData (payload : object).

Definition perform (c : call) (this : LiqPay) : LiqPay :=
  match c with
  | call_setApiVersion v => snd (setApiVersion v this)
  | call_getHtmlForm payload => snd (getHtmlForm payload this)
  | call_getObjData payload => snd (getObjData payload this)
  end.

Definition perform_all (calls : list call) (this : LiqPay) : LiqPay :=
  fold_left (fun s c => perform c s) calls this.

Inductive reachable : LiqPay -> Prop :=
| reachable_new (privateKey publicKey : string) (enableSandbox : bool) :
    reachable (constructor privateKey publicKey enableSandbox)
| reachable_call (c : call) (this : LiqPay) :
    reachable this -> reachable (perform c this).

Definition is_query (c : call) : bool :=
  match c with
  | call_setApiVersion _ => false
  | _ => true
  end.

(** ** Reading the form

    The attributes of the markup: the text is cut at white space outside
    double quotes; an attribute [name] is a piece that starts with the name,
    an equals sign and a quote, and its value runs to the next quote. *)

Definition is_space (c : ascii) : bool :=
  let n := N_of_ascii c in
  ((n =? 32) || (n =? 10) || (n =? 9) || (n =? 13) || (n =? 12))%N.

Definition push_word (w : string) (ws : list string) : list string :=
  match w with
  | EmptyString => ws
  | _ => w :: ws
  end.

(** [split_words quoted s]: the piece [s] starts with and the pieces after
    it; [quoted] tells whether [s] starts inside double quotes. *)
Fixpoint split_words (quoted : bool) (s : string) : string * list string :=
  match s with
  | EmptyString => (EmptyString, [])
  | String c rest =>
      if Ascii.eqb c dquote then
        let (w, ws) := split_words (negb quoted) rest in (String c w, ws)
      else if is_space c && negb quoted then
        let (w, ws) := split_words quoted rest in (EmptyString, push_word w ws)
      else
        let (w, ws) := split_words quoted rest in (String c w, ws)
  end.

Definition words (s : string) : list string :=
  let (w, ws) := split_words false s in push_word w ws.

Fixpoint until_quote (s : string) : string :=
  match s with
  | EmptyString => EmptyString
  | String c rest =>
      if Ascii.eqb c dquote then EmptyString else String c (until_quote rest)
  end.

Definition attribute (name word : string) : option string :=
  match strip_prefix (name ++ "=" ++ dq) word with
  | Some rest => Some (until_quote rest)
  | None => None
  end.

Fixpoint attributes (name : string) (ws : list string) : list string :=
  match ws with
  | [] => []
  | w :: rest =>
      match attribute name w with
      | Some v => v :: attributes name rest
      | None => attributes name rest
      end
  end.

(** The hidden inputs of the form, as name and value. *)
Fixpoint hidden_fields (ws : list string) : list (string * string) :=
  match ws with
  | [] => []
  | t :: rest =>
      match attribute "type" t, rest with
      | Some ty, n :: v :: _ =>
          match attribute "name" n, attribute "value" v with
          | Some name, Some val =>
              if String.eqb ty "hidden"
              then (name, val) :: hidden_fields rest
              else hidden_fields rest
          | _, _ => hidden_fields rest
          end
      | _, _ => hidden_fields rest
      end
  end.

Fixpoint contains_char (c : ascii) (s : string) : bool :=
  match s with
  | EmptyString => false
  | String c' rest => Ascii.eqb c c' || contains_char c rest
  end.

(** ** Auxiliary notions *)

(** The values a JSON text can hold. *)
Definition is_json_value (v : value) : Prop := json_value v = Some v.

(** The values a buffer holds. *)
Definition is_byte (x : N) : Prop := (x < 256)%N.

(** The pieces of the form on an instance with the constructor's base URL
    and image, for a version, a data string and a signature. *)
Definition form_pieces (v d g : string) : list string :=
  ["<form";
   "method=" ++ dq ++ "POST" ++ dq;
   "action=" ++ dq ++ "https://www.liqpay.ua/api/" ++ v ++ "/checkout" ++ dq;
   "accept-charset=" ++ dq ++ "utf-8" ++ dq ++ ">";
   "<input"; "type=" ++ dq ++ "hidden" ++ dq; "name=" ++ dq ++ "data" ++ dq;
   "value=" ++ dq ++ d ++ dq; "/>";
   "<input"; "type=" ++ dq ++ "hidden" ++ dq;
   "name=" ++ dq ++ "signature" ++ dq;
   "value=" ++ dq ++ g ++ dq; "/>";
   "<input"; "type=" ++ dq ++ "image" ++ dq;
   "src=" ++ dq ++ "//static.liqpay.ua/buttons/p1ru.radius.png" ++ dq; "/>";
   "</form>"].

(** A key that a write appends: neither an array index nor [__proto__]. *)
Definition plain_key (k : string) : Prop :=
  array_index k = None /\ String.eqb k "__proto__" = false.

(** ** The statements of the specification *)

(** The order in which the specification lists the fields of the payment. *)
Definition spec_field_order (sandbox : bool) : list string :=
  (["action"; "amount"; "currency"; "description"; "order_id"; "language"]
   ++ (if sandbox then ["sandbox"] else [])
   ++ ["version"; "public_key"])%list.

(** The keys the builder may add to the copy of the payload, in the order it
    writes them, and those among them the copy does not have yet. *)
Definition builder_keys (this : LiqPay) : list string :=
  (["language"] ++ (if enableSandbox this then ["sandbox"] else [])
   ++ ["version"; "public_key"])%list.

Definition added_keys (copy : object) (this : LiqPay) : list string :=
  filter (fun k => negb (has_own k copy)) (builder_keys this).

(** Signing as the specification states it, with the fixed field order. *)
Definition signing_claim (payload : object) (this : LiqPay) : Prop :=
  exists payment sig,
    preparePayment payload this = (inr payment, this)
    /\ getObjData payload this = (inr sig, this)
    /\ data sig = base64 (Buffer_from (JSON_stringify payment))
    /\ signature sig = base64 (SHA1.digest (Buffer_from (signed_text this (data sig))))
    /\ option_map keys (decode (data sig))
       = Some (spec_field_order (enableSandbox this)).

(** The fields validation requires, in the order it checks them, and the
    error it raises for each. *)
Definition required_fields : list string :=
  ["version"; "amount"; "currency"; "description"].

Definition first_missing (payment : object) : option string :=
  find (fun k => negb (ToBoolean (Get payment k))) required_fields.

Definition ValidationError (field : string) : exception :=
  TypeError
    (if String.eqb field "version" then "Version must be specified!"
     else if String.eqb field "amount" then "Amount must be specified!"
     else if String.eqb field "currency" then "Currency must be specified!"
     else "Description must be specified!").

(** The sandbox marker as the specification states it. *)
Definition sandbox_claim (payload : object) (this : LiqPay) : Prop :=
  exists sig members,
    getObjData payload this = (inr sig, this)
    /\ decode (data sig) = Some members
    /\ lookup "sandbox" members
       = if enableSandbox this then Some (Str "1") else None.

(** The form as the specification states it. *)
Definition form_claim (payload : object) (this : LiqPay) : Prop :=
  exists html sig,
    getHtmlForm payload this = (inr html, this)
    /\ getObjData payload this = (inr sig, this)
    /\ attributes "action" (words html)
       = [baseUrl this ++ "/" ++ apiVersion this ++ "/checkout"]
    /\ hidden_fields (words html)
       = [("data", data sig); ("signature", signature sig)].

(** Normalisation as the specification states it: the default language
    exactly for a caller who left it unset. *)
Definition normalisation_claim (payload : object) (this : LiqPay) : Prop :=
  (Get payload "language" = undefined ->
   Get (payment_of payload this) "language" = Str Language_UA)
  /\ (Get payload "language" <> undefined ->
      Get (payment_of payload this) "language" = Get payload "language")
  /\ Get (payment_of payload this) "version" = Str (apiVersion this)
  /\ Get (payment_of payload this) "public_key" = Str (publicKey this).

(** Immutability as the specification states it. *)
Definition immutable_claim (c : call) (this : LiqPay) : Prop :=
  privateKey (perform c this) = privateKey this
  /\ publicKey (perform c this) = publicKey this
  /\ enableSandbox (perform c this) = enableSandbox this
  /\ apiVersion (perform c this) = apiVersion this.

Definition differ_in_exactly_one_field (p1 p2 : object) : Prop :=
  exists k,
    lookup k p1 <> lookup k p2
    /\ forall k', k' <> k -> lookup k' p1 = lookup k' p2.

(** The avalanche property as the specification states it. *)
Definition avalanche_claim (p1 p2 : object) (this : LiqPay) : Prop :=
  differ_in_exactly_one_field p1 p2 ->
  forall s1 s2,
    getObjData p1 this = (inr s1, this) ->
    getObjData p2 this = (inr s2, this) ->
    signature s1 <> signature s2.

(** What a JSON text shows of a field of an object. *)
Definition json_field (k : string) (o : object) : option value :=
  match lookup k o with
  | Some v => json_value v
  | None => None
  end.

(** The fields of a payload the builder passes on as they are. *)
Definition business_fields : list string :=
  ["action"; "amount"; "currency"; "description"; "order_id"].

(** ** Further notions *)

(** A version that closes the quotes of the action attribute. *)
Definition breaking_version : string :=
  "3" ++ dq ++ " action=" ++ dq ++ "x".

Fixpoint dashes (n : nat) : string :=
  match n with
  | O => "-"
  | S n' => String "-" (dashes n')
  end.

(** Every list of [n] bytes. *)
Fixpoint byte_lists (n : nat) : list bytes :=
  match n with
  | O => [[]]
  | S n' =>
      flat_map (fun tail => map (fun x => N.of_nat x :: tail) (seq 0 256))
        (byte_lists n')
  end.

(** The characters a base64 text is made of. *)
Definition is_base64_char (c : ascii) : bool :=
  match base64_index c with
  | Some _ => true
  | None => Ascii.eqb c "="
  end.

(** The version a run of calls leaves, from the version it starts with. *)
Definition last_version (calls : list call) (start : string) : string :=
  fold_left
    (fun v c =>
       match c with
       | call_setApiVersion v' => if String.eqb v' EmptyString then v else v'
       | _ => v
       end)
    calls start.

(** The keys the builder writes whatever the payload holds. *)
Definition builder_owned (k : string) : bool :=
  String.eqb k "language" || String.eqb k "sandbox"
  || String.eqb k "version" || String.eqb k "public_key".

(** The order of own keys: array indices first, ascending, then the other
    keys. *)
Definition precedes (k1 k2 : string) : Prop :=
  match array_index k1, array_index k2 with
  | Some a, Some b => (a < b)%N
  | Some _, None => True
  | None, Some _ => False
  | None, None => True
  end.

Fixpoint keys_in_order (ks : list string) : Prop :=
  match ks with
  | [] => True
  | k :: rest => Forall (precedes k) rest /\ keys_in_order rest
  end.

(** The lists that are the own properties of an ordinary object, as
    [[OwnPropertyKeys]] reports them. *)
Definition ordinary (o : object) : Prop :=
  NoDup (keys o) /\ ~ In "__proto__" (keys o) /\ keys_in_order (keys o).

End Builder.

(** ** Strings

    Concatenation and length, for the instance of the numbers and for the
    properties. *)

Lemma append_assoc (a b c : string) : (a ++ b) ++ c = a ++ (b ++ c).
Proof.
  induction a as [|x a IH]; simpl; [reflexivity | now rewrite IH].
Qed.

Lemma append_empty_r (a : string) : a ++ EmptyString = a.
Proof.
  induction a as [|x a IH]; simpl; [reflexivity | now rewrite IH].
Qed.

Lemma append_inv_head (a b c : string) : a ++ b = a ++ c -> b = c.
Proof.
  induction a as [|x a IH]; simpl; intros H; [exact H |].
  injection H as H. now apply IH.
Qed.

Lemma length_append (a b : string) :
  String.length (a ++ b) = (String.length a + String.length b)%nat.
Proof.
  induction a as [|x a IH]; simpl; [reflexivity | now rewrite IH].
Qed.

Lemma append_inv_tail (a b c : string) : a ++ c = b ++ c -> a = b.
Proof.
  revert b. induction a as [|x a IH]; intros [|y b] H; simpl in H.
  - reflexivity.
  - apply (f_equal String.length) in H. simpl in H.
    rewrite length_append in H. lia.
  - apply (f_equal String.length) in H. simpl in H.
    rewrite length_append in H. lia.
  - injection H as -> H. f_equal. now apply IH.
Qed.


(** ** The decimals: an instance of the numbers

    The doubles that at most fifteen significant digits identify, between
    10^-300 and 10^300 in magnitude, and zero.  A double of this kind is given
    by the very integers Number::toString prints it from: the digits of [s]
    and the position [n] of the decimal point, for the value
    [s * 10^(n - k)] with [k] the number of digits; [s] does not end in zero,
    which makes [k] as small as can be.  Fifteen digits are few enough for
    two such decimals never to round to the same double, so the digits that
    Number::toString finds for the double are these.  Sums of money, with or
    without a fraction, are all of this kind. *)

Fixpoint zeros (n : nat) : string :=
  match n with
  | O => EmptyString
  | S n' => String "0" (zeros n')
  end.

Fixpoint take (n : nat) (s : string) : string :=
  match n, s with
  | S n', String c rest => String c (take n' rest)
  | _, _ => EmptyString
  end.

Fixpoint drop (n : nat) (s : string) : string :=
  match n, s with
  | S n', String _ rest => drop n' rest
  | _, _ => s
  end.

Fixpoint last_char (c : ascii) (s : string) : ascii :=
  match s with
  | EmptyString => c
  | String c' rest => last_char c' rest
  end.

Definition ends_with (p : ascii -> bool) (s : string) : bool :=
  match s with
  | EmptyString => false
  | String c rest => p (last_char c rest)
  end.

Definition is_nonzero_digit (c : ascii) : bool :=
  is_digit c && negb (Ascii.eqb c "0").

(** The digits and the position of a decimal of the instance. *)
Definition shortest (ds : string) (n : Z) : bool :=
  all_chars is_digit ds
  && starts_with is_nonzero_digit ds
  && ends_with is_nonzero_digit ds
  && (String.length ds <=? 15)%nat
  && (-300 <=? n)%Z && (n <=? 300)%Z.

Inductive decimal : Type :=
| Zero
| Digits (negative : bool) (ds : string) (n : Z) (ok : shortest ds n = true).

Definition decimal_nonzero (x : decimal) : bool :=
  match x with
  | Zero => false
  | Digits _ _ _ _ => true
  end.

Definition N_to_string (a : N) : string :=
  NilZero.string_of_uint (N.to_uint a).

Definition exponent_text (e : Z) : string :=
  (if (e <? 0)%Z then "-" else "+") ++ N_to_string (Z.to_N (Z.abs e)).

(** Number::toString in radix 10 (ECMA-262, 6.1.6.1.20), steps 5 to 10, on
    the digits [ds], [k] of them, and the position [n]. *)
Definition digits_text (ds : string) (n : Z) : string :=
  let k := Z.of_nat (String.length ds) in
  if ((k <=? n) && (n <=? 21))%Z then
    ds ++ zeros (Z.to_nat (n - k))
  else if ((0 <? n) && (n <=? 21))%Z then
    take (Z.to_nat n) ds ++ "." ++ drop (Z.to_nat n) ds
  else if ((-6 <? n) && (n <=? 0))%Z then
    "0." ++ zeros (Z.to_nat (- n)) ++ ds
  else
    match ds with
    | EmptyString => EmptyString
    | String d EmptyString => String d ("e" ++ exponent_text (n - 1))
    | String d rest => String d ("." ++ rest ++ "e" ++ exponent_text (n - 1))
    end.

Definition decimal_to_string (x : decimal) : string :=
  match x with
  | Zero => "0"
  | Digits negative ds n _ => (if negative then "-" else "") ++ digits_text ds n
  end.

(** The decimal of given digits and position, when there is one. *)
Definition make (negative : bool) (ds : string) (n : Z) : option decimal :=
  match shortest ds n as b return shortest ds n = b -> option decimal with
  | true => fun ok => Some (Digits negative ds n ok)
  | false => fun _ => None
  end eq_refl.

Fixpoint span_digits (s : string) : string * string :=
  match s with
  | EmptyString => (EmptyString, EmptyString)
  | String c rest =>
      if is_digit c
      then let (ds, rest') := span_digits rest in (String c ds, rest')
      else (EmptyString, s)
  end.

Fixpoint strip_zeros (s : string) : string :=
  match s with
  | EmptyString => EmptyString
  | String c rest => if Ascii.eqb c "0" then strip_zeros rest else s
  end.

Fixpoint strip_trailing_zeros (s : string) : string :=
  match s with
  | EmptyString => EmptyString
  | String c rest =>
      match strip_trailing_zeros rest with
      | EmptyString => if Ascii.eqb c "0" then EmptyString else str1 c
      | rest' => String c rest'
      end
  end.

(** The grammar of a JSON number (ECMA-404, section 8): an optional minus
    sign, an integer part without a superfluous leading zero, an optional
    fraction and an optional exponent. *)
Definition integer_part_ok (ds : string) : bool :=
  match ds with
  | EmptyString => false
  | String c rest => negb (Ascii.eqb c "0") || String.eqb rest EmptyString
  end.

Definition read_fraction (s : string) : option (string * string) :=
  match s with
  | String c rest =>
      if Ascii.eqb c "." then
        let (ds, rest') := span_digits rest in
        if String.eqb ds EmptyString then None else Some (ds, rest')
      else Some (EmptyString, s)
  | EmptyString => Some (EmptyString, s)
  end.

Definition read_exponent (s : string) : option Z :=
  match s with
  | EmptyString => Some 0%Z
  | String c rest =>
      if Ascii.eqb c "e" || Ascii.eqb c "E" then
        let (negative, ds) :=
          match rest with
          | String c' rest' =>
              if Ascii.eqb c' "-" then (true, rest')
              else if Ascii.eqb c' "+" then (false, rest')
              else (false, rest)
          | EmptyString => (false, rest)
          end in
        match NilZero.uint_of_string ds with
        | Some u =>
            let a := Z.of_N (N.of_uint u) in
            Some (if negative then (- a)%Z else a)
        | None => None
        end
      else None
  end.

(** The value of a number token: the digits of the integer part and of the
    fraction, without the zeros that lead and the zeros that trail, and the
    position that the exponent and the leading zeros leave.  The token of
    minus zero, and a token of a value outside the instance, are not read. *)
Definition decimal_of_body (negative : bool) (body : string) : option decimal :=
  let (int_part, rest) := span_digits body in
  if integer_part_ok int_part then
    match read_fraction rest with
    | Some (fraction, rest') =>
        match read_exponent rest' with
        | Some e =>
            let all := int_part ++ fraction in
            let significant := strip_zeros all in
            let ds := strip_trailing_zeros significant in
            if String.eqb ds EmptyString then
              if negative then None else Some Zero
            else
              make negative ds
                (Z.of_nat (String.length int_part)
                 - Z.of_nat (String.length all - String.length significant)
                 + e)%Z
        | None => None
        end
    | None => None
    end
  else None.

Definition decimal_of_string (token : string) : option decimal :=
  match token with
  | String c rest =>
      if Ascii.eqb c "-" then decimal_of_body true rest
      else decimal_of_body false token
  | EmptyString => None
  end.

(** The laws of the class, for the decimals. *)

Lemma decimal_nonzero_zero (x : decimal) :
  decimal_nonzero x = false <-> x = Zero.
Proof.
  destruct x; simpl; split; congruence.
Qed.

Lemma make_ok (negative : bool) (ds : string) (n : Z)
    (ok : shortest ds n = true) :
  make negative ds n = Some (Digits negative ds n ok).
Proof.
  unfold make.
  enough (H : forall (b : bool) (T : true = b) (E : shortest ds n = b),
             (match b as b' return shortest ds n = b' -> option decimal with
              | true => fun ok' => Some (Digits negative ds n ok')
              | false => fun _ => None
              end) E
             = Some (Digits negative ds n (eq_trans E (eq_sym T)))).
  { rewrite (H _ (eq_sym ok) eq_refl).
    now rewrite eq_sym_involutive, eq_trans_refl_l. }
  intros b T. destruct T. reflexivity.
Qed.

Lemma all_chars_app (p : ascii -> bool) (a b : string) :
  all_chars p (a ++ b) = all_chars p a && all_chars p b.
Proof.
  induction a as [|c a IH]; simpl; [reflexivity |].
  now rewrite IH, andb_assoc.
Qed.

Lemma all_chars_impl (p q : ascii -> bool) (s : string) :
  (forall c, p c = true -> q c = true) ->
  all_chars p s = true -> all_chars q s = true.
Proof.
  intros Hpq. induction s as [|c s IH]; simpl; [reflexivity |].
  intros H. apply andb_true_iff in H. destruct H as [Hc Hs].
  now rewrite (Hpq c Hc), (IH Hs).
Qed.

Lemma digit_is_number_char (c : ascii) :
  is_digit c = true -> is_number_char c = true.
Proof.
  unfold is_number_char. now intros ->.
Qed.

Lemma all_chars_zeros (n : nat) : all_chars is_digit (zeros n) = true.
Proof.
  induction n as [|n IH]; simpl; [reflexivity | exact IH].
Qed.

Lemma length_zeros (n : nat) : String.length (zeros n) = n.
Proof.
  induction n as [|n IH]; simpl; [reflexivity | now rewrite IH].
Qed.

Lemma take_drop (n : nat) (s : string) : take n s ++ drop n s = s.
Proof.
  revert s. induction n as [|n IH]; intros [|c s]; simpl; try reflexivity.
  now rewrite IH.
Qed.

Lemma length_take (n : nat) (s : string) :
  (n <= String.length s)%nat -> String.length (take n s) = n.
Proof.
  revert s. induction n as [|n IH]; intros [|c s]; simpl; intros H;
    try reflexivity; try lia.
  rewrite IH; [reflexivity | lia].
Qed.

Lemma drop_nonempty (n : nat) (s : string) :
  (n < String.length s)%nat -> drop n s <> EmptyString.
Proof.
  revert s. induction n as [|n IH]; intros [|c s]; simpl; intros H;
    try discriminate; try lia.
  apply IH. lia.
Qed.

Lemma starts_with_take (p : ascii -> bool) (n : nat) (s : string) :
  (0 < n)%nat -> starts_with p (take n s) = starts_with p s.
Proof.
  destruct n as [|n]; [lia |]. now destruct s.
Qed.

Lemma starts_with_app (p : ascii -> bool) (a b : string) :
  a <> EmptyString -> starts_with p (a ++ b) = starts_with p a.
Proof.
  now destruct a.
Qed.

Lemma span_digits_app (a r : string) :
  all_chars is_digit a = true ->
  starts_with is_digit r = false ->
  span_digits (a ++ r) = (a, r).
Proof.
  intros Ha Hr. induction a as [|c a IH]; simpl in *.
  - destruct r as [|c r]; [reflexivity |]. simpl in *. now rewrite Hr.
  - apply andb_true_iff in Ha. destruct Ha as [Hc Ha].
    rewrite Hc, (IH Ha). reflexivity.
Qed.

Lemma strip_zeros_nonzero (s : string) :
  starts_with is_nonzero_digit s = true -> strip_zeros s = s.
Proof.
  destruct s as [|c s]; simpl; [reflexivity |].
  unfold is_nonzero_digit. intros H. apply andb_true_iff in H.
  destruct H as [_ H]. apply negb_true_iff in H. now rewrite H.
Qed.

Lemma strip_zeros_app (n : nat) (s : string) :
  starts_with is_nonzero_digit s = true -> strip_zeros (zeros n ++ s) = s.
Proof.
  intros H. induction n as [|n IH]; simpl; [now apply strip_zeros_nonzero | exact IH].
Qed.

Lemma strip_trailing_zeros_zeros (n : nat) :
  strip_trailing_zeros (zeros n) = EmptyString.
Proof.
  induction n as [|n IH]; simpl; [reflexivity | now rewrite IH].
Qed.

Lemma strip_trailing_zeros_app (n : nat) (s : string) :
  ends_with is_nonzero_digit s = true ->
  strip_trailing_zeros (s ++ zeros n) = s.
Proof.
  destruct s as [|c s]; [discriminate |]. simpl.
  revert c. induction s as [|c' s IH]; intros c H; simpl in *.
  - rewrite strip_trailing_zeros_zeros.
    unfold is_nonzero_digit in H. apply andb_true_iff in H.
    destruct H as [_ H]. apply negb_true_iff in H. now rewrite H.
  - specialize (IH c' H). simpl in IH. 
    destruct (strip_trailing_zeros (s ++ zeros n)) as [|x y] eqn:E.
    + destruct (Ascii.eqb c' "0"); [discriminate IH |].
      injection IH as <-. reflexivity.
    + injection IH as <-. now subst.
Qed.

Lemma strip_trailing_zeros_nonzero (s : string) :
  ends_with is_nonzero_digit s = true -> strip_trailing_zeros s = s.
Proof.
  intros H. rewrite <- (strip_trailing_zeros_app 0 s H) at 2.
  simpl. f_equal. clear H. induction s as [|c s IH]; simpl; [reflexivity | now rewrite <- IH].
Qed.

Lemma digits_of_uint (d : Decimal.uint) :
  all_chars is_digit (NilEmpty.string_of_uint d) = true.
Proof.
  induction d; simpl; auto.
Qed.

Lemma N_to_string_digits (a : N) :
  all_chars is_digit (N_to_string a) = true.
Proof.
  unfold N_to_string. destruct (N.to_uint a); simpl; try reflexivity;
    apply digits_of_uint.
Qed.

Lemma N_of_string_to_string (a : N) :
  NilZero.uint_of_string (N_to_string a) = Some (N.to_uint a).
Proof.
  unfold N_to_string. apply NilZero.usu.
  destruct a as [|p]; simpl; [discriminate |].
  intros H. now apply DecimalPos.Unsigned.to_uint_nonnil in H.
Qed.

Lemma read_exponent_text (e : Z) :
  read_exponent ("e" ++ exponent_text e) = Some e.
Proof.
  unfold exponent_text.
  destruct (e <? 0)%Z eqn:E; cbn -[NilZero.uint_of_string N_to_string];
    rewrite N_of_string_to_string, Unsigned.of_to; f_equal.
  - apply Z.ltb_lt in E. lia.
  - apply Z.ltb_ge in E. lia.
Qed.

Lemma exponent_text_chars (e : Z) :
  all_chars is_number_char ("e" ++ exponent_text e) = true.
Proof.
  unfold exponent_text.
  destruct (e <? 0)%Z; cbn -[N_to_string];
    apply (all_chars_impl is_digit); auto using digit_is_number_char,
      N_to_string_digits.
Qed.

(** What [shortest] says of the digits. *)
Lemma shortest_digits (ds : string) (n : Z) :
  shortest ds n = true ->
  all_chars is_digit ds = true
  /\ starts_with is_nonzero_digit ds = true
  /\ ends_with is_nonzero_digit ds = true.
Proof.
  unfold shortest. intros H.
  repeat (apply andb_true_iff in H; destruct H as [H ?]). auto.
Qed.

Lemma nonzero_digit_is_digit (s : string) :
  starts_with is_nonzero_digit s = true -> starts_with is_digit s = true.
Proof.
  destruct s as [|c s]; simpl; [discriminate |].
  unfold is_nonzero_digit. intros H. now apply andb_true_iff in H.
Qed.

Lemma integer_part_nonzero (s : string) :
  starts_with is_nonzero_digit s = true -> integer_part_ok s = true.
Proof.
  destruct s as [|c s]; simpl; [discriminate |].
  unfold is_nonzero_digit. intros H. apply andb_true_iff in H.
  destruct H as [_ H]. now rewrite H.
Qed.

Lemma eqb_empty (s : string) :
  s <> EmptyString -> String.eqb s EmptyString = false.
Proof.
  now destruct s.
Qed.

Lemma nonempty_start (p : ascii -> bool) (s : string) :
  starts_with p s = true -> s <> EmptyString.
Proof.
  now destruct s.
Qed.

Lemma read_fraction_point (s : string) :
  read_fraction (String "." s)
  = let (ds, rest) := span_digits s in
    if String.eqb ds EmptyString then None else Some (ds, rest).
Proof.
  reflexivity.
Qed.

Section Forms.

Variables (negative : bool) (ds : string).
Hypothesis digits : all_chars is_digit ds = true.
Hypothesis leading : starts_with is_nonzero_digit ds = true.
Hypothesis trailing : ends_with is_nonzero_digit ds = true.

(** The digits, then zeros up to the decimal point. *)
Lemma read_integer_form (z : nat) :
  decimal_of_body negative (ds ++ zeros z)
  = make negative ds (Z.of_nat (String.length ds) + Z.of_nat z).
Proof.
  unfold decimal_of_body.
  rewrite <- (append_empty_r (ds ++ zeros z)) at 1.
  rewrite span_digits_app;
    [| now rewrite all_chars_app, digits, all_chars_zeros | reflexivity].
  rewrite integer_part_nonzero
    by (rewrite starts_with_app; eauto using nonempty_start).
  cbn [read_fraction read_exponent]. rewrite append_empty_r.
  rewrite strip_zeros_nonzero
    by (rewrite starts_with_app; eauto using nonempty_start).
  rewrite strip_trailing_zeros_app by exact trailing.
  rewrite eqb_empty by eauto using nonempty_start.
  f_equal. rewrite length_append, length_zeros. lia.
Qed.

(** The decimal point among the digits. *)
Lemma read_fraction_form (m : nat) :
  (0 < m < String.length ds)%nat ->
  decimal_of_body negative (take m ds ++ "." ++ drop m ds)
  = make negative ds (Z.of_nat m).
Proof.
  intros Hm. unfold decimal_of_body.
  pose proof (take_drop m ds) as Hsplit.
  assert (Hboth : all_chars is_digit (take m ds) = true
                  /\ all_chars is_digit (drop m ds) = true).
  { apply andb_true_iff. rewrite <- all_chars_app, Hsplit. exact digits. }
  destruct Hboth as [Htake Hdrop].
  rewrite span_digits_app; [| exact Htake | reflexivity].
  rewrite integer_part_nonzero by (rewrite starts_with_take; [exact leading | lia]).
  cbn [read_fraction append Ascii.eqb Bool.eqb].
  rewrite <- (append_empty_r (drop m ds)) at 1.
  rewrite span_digits_app; [| exact Hdrop | reflexivity].
  rewrite eqb_empty by (apply drop_nonempty; lia).
  cbn [read_exponent]. rewrite Hsplit.
  rewrite strip_zeros_nonzero by exact leading.
  rewrite strip_trailing_zeros_nonzero by exact trailing.
  rewrite eqb_empty by eauto using nonempty_start.
  f_equal. rewrite length_take by lia. lia.
Qed.

(** Zeros between the decimal point and the digits. *)
Lemma read_small_form (z : nat) :
  decimal_of_body negative ("0." ++ zeros z ++ ds)
  = make negative ds (- Z.of_nat z).
Proof.
  unfold decimal_of_body.
  change ("0." ++ zeros z ++ ds) with ("0" ++ String "." (zeros z ++ ds)).
  rewrite span_digits_app by reflexivity.
  change (integer_part_ok "0") with true. cbv iota.
  rewrite read_fraction_point.
  rewrite <- (append_empty_r (zeros z ++ ds)) at 1.
  rewrite span_digits_app;
    [| now rewrite all_chars_app, digits, all_chars_zeros | reflexivity].
  rewrite eqb_empty
    by (destruct z; simpl; [eauto using nonempty_start | discriminate]).
  cbn [read_exponent].
  change ("0" ++ zeros z ++ ds) with (zeros (S z) ++ ds).
  rewrite strip_zeros_app by exact leading.
  rewrite strip_trailing_zeros_nonzero by exact trailing.
  rewrite eqb_empty by eauto using nonempty_start.
  f_equal. rewrite length_append, length_zeros. cbn [String.length]. lia.
Qed.

End Forms.

(** One digit, the rest as a fraction, and the exponent. *)
Lemma read_exponent_form (negative : bool) (d : ascii) (rest : string) (e : Z) :
  all_chars is_digit (String d rest) = true ->
  starts_with is_nonzero_digit (String d rest) = true ->
  ends_with is_nonzero_digit (String d rest) = true ->
  decimal_of_body negative
    (match rest with
     | EmptyString => String d ("e" ++ exponent_text e)
     | _ => String d ("." ++ rest ++ "e" ++ exponent_text e)
     end)
  = make negative (String d rest) (1 + e).
Proof.
  intros digits leading trailing.
  assert (Hd : all_chars is_digit (str1 d) = true).
  { simpl in *. apply andb_true_iff in digits. now rewrite (proj1 digits). }
  assert (Hrest : all_chars is_digit rest = true).
  { simpl in digits. now apply andb_true_iff in digits. }
  unfold decimal_of_body.
  destruct rest as [|c rest].
  - change (String d ("e" ++ exponent_text e))
      with (str1 d ++ ("e" ++ exponent_text e)).
    rewrite span_digits_app; [| exact Hd | reflexivity].
    rewrite integer_part_nonzero by exact leading.
    change (read_fraction ("e" ++ exponent_text e))
      with (Some (EmptyString, "e" ++ exponent_text e)).
    cbv iota. rewrite read_exponent_text, append_empty_r.
    rewrite strip_zeros_nonzero by exact leading.
    rewrite strip_trailing_zeros_nonzero by exact trailing.
    cbn [str1 String.eqb String.length]. f_equal; lia.
  - change (String d ("." ++ String c rest ++ "e" ++ exponent_text e))
      with (str1 d ++ String "." (String c rest ++ "e" ++ exponent_text e)).
    rewrite span_digits_app; [| exact Hd | reflexivity].
    rewrite integer_part_nonzero by exact leading.
    rewrite read_fraction_point.
    rewrite span_digits_app; [| exact Hrest | reflexivity].
    cbn [String.eqb]. rewrite read_exponent_text.
    change (str1 d ++ String c rest) with (String d (String c rest)).
    rewrite strip_zeros_nonzero by exact leading.
    rewrite strip_trailing_zeros_nonzero by exact trailing.
    cbn [String.eqb str1 String.length]. f_equal; lia.
Qed.

Lemma decimal_of_body_text (negative : bool) (ds : string) (n : Z) :
  shortest ds n = true ->
  decimal_of_body negative (digits_text ds n) = make negative ds n.
Proof.
  intros ok. destruct (shortest_digits ds n ok) as [Hd [Hs He]].
  assert (Hlength : (0 < String.length ds)%nat).
  { destruct ds; [discriminate | simpl; lia]. }
  unfold digits_text.
  destruct ((Z.of_nat (String.length ds) <=? n) && (n <=? 21))%Z eqn:A.
  { apply andb_true_iff in A. destruct A as [A _]. apply Z.leb_le in A.
    rewrite read_integer_form by assumption. f_equal. lia. }
  destruct ((0 <? n) && (n <=? 21))%Z eqn:B.
  { apply andb_true_iff in B. destruct B as [B B']. apply Z.ltb_lt in B.
    apply Z.leb_le in B'. apply andb_false_iff in A.
    assert (Hm : (0 < Z.to_nat n < String.length ds)%nat)
      by (destruct A as [A | A]; apply Z.leb_gt in A; lia).
    rewrite read_fraction_form by assumption.
    f_equal. lia. }
  destruct ((-6 <? n) && (n <=? 0))%Z eqn:C.
  { apply andb_true_iff in C. destruct C as [_ C]. apply Z.leb_le in C.
    rewrite read_small_form by assumption. f_equal. lia. }
  destruct ds as [|d rest]; [discriminate |].
  assert (E := read_exponent_form negative d rest (n - 1) Hd Hs He).
  replace (1 + (n - 1))%Z with n in E by lia.
  destruct rest; exact E.
Qed.

Lemma digit_not_minus (c : ascii) :
  is_digit c = true -> Ascii.eqb c "-" = false.
Proof.
  destruct c as [[] [] [] [] [] [] [] []]; intros H; try discriminate H;
    reflexivity.
Qed.

Lemma digits_text_start (ds : string) (n : Z) :
  shortest ds n = true -> starts_with is_digit (digits_text ds n) = true.
Proof.
  intros ok. destruct (shortest_digits ds n ok) as [Hd [Hs He]].
  apply nonzero_digit_is_digit in Hs.
  unfold digits_text.
  destruct ((Z.of_nat (String.length ds) <=? n) && (n <=? 21))%Z eqn:A.
  { rewrite starts_with_app; eauto using nonempty_start. }
  destruct ((0 <? n) && (n <=? 21))%Z eqn:B.
  { apply andb_true_iff in B. destruct B as [B _]. apply Z.ltb_lt in B.
    destruct (Z.to_nat n) as [|m] eqn:E; [lia |].
    destruct ds; [discriminate | exact Hs]. }
  destruct ((-6 <? n) && (n <=? 0))%Z; [reflexivity |].
  destruct ds as [|d [|c rest]]; [discriminate | exact Hs | exact Hs].
Qed.

Lemma digits_text_chars (ds : string) (n : Z) :
  shortest ds n = true -> all_chars is_number_char (digits_text ds n) = true.
Proof.
  intros ok. destruct (shortest_digits ds n ok) as [Hd [Hs He]].
  assert (Hn : all_chars is_number_char ds = true)
    by (apply (all_chars_impl is_digit); auto using digit_is_number_char).
  assert (Hz : forall z, all_chars is_number_char (zeros z) = true).
  { intros z. apply (all_chars_impl is_digit);
      auto using digit_is_number_char, all_chars_zeros. }
  unfold digits_text.
  destruct ((Z.of_nat (String.length ds) <=? n) && (n <=? 21))%Z.
  { now rewrite all_chars_app, Hn, Hz. }
  destruct ((0 <? n) && (n <=? 21))%Z.
  { rewrite <- (take_drop (Z.to_nat n) ds), all_chars_app in Hn.
    apply andb_true_iff in Hn. destruct Hn as [H1 H2].
    rewrite all_chars_app, H1. simpl. exact H2. }
  destruct ((-6 <? n) && (n <=? 0))%Z.
  { change ("0." ++ zeros (Z.to_nat (- n)) ++ ds)
      with ("0" ++ "." ++ zeros (Z.to_nat (- n)) ++ ds).
    now rewrite !all_chars_app, Hn, Hz. }
  destruct ds as [|d [|c rest]]; [reflexivity | |].
  - simpl in Hn. apply andb_true_iff in Hn. destruct Hn as [H1 _].
    cbn [all_chars]. rewrite H1. apply exponent_text_chars.
  - change (String d ("." ++ String c rest ++ "e" ++ exponent_text (n - 1)))
      with (str1 d ++ "." ++ String c rest ++ "e" ++ exponent_text (n - 1)).
    change (String d (String c rest)) with (str1 d ++ String c rest) in Hn.
    rewrite all_chars_app in Hn. apply andb_true_iff in Hn.
    destruct Hn as [H1 H2].
    rewrite !all_chars_app, H1, H2.
    rewrite <- all_chars_app, exponent_text_chars. reflexivity.
Qed.

Lemma decimal_text_chars (x : decimal) :
  all_chars is_number_char (decimal_to_string x) = true.
Proof.
  destruct x as [|negative ds n ok]; [reflexivity |].
  unfold decimal_to_string. rewrite all_chars_app, digits_text_chars by exact ok.
  now destruct negative.
Qed.

Lemma decimal_text_start (x : decimal) :
  starts_with is_number_start (decimal_to_string x) = true.
Proof.
  destruct x as [|negative ds n ok]; [reflexivity |].
  unfold decimal_to_string. destruct negative; [reflexivity |].
  pose proof (digits_text_start ds n ok) as H. cbn [append].
  destruct (digits_text ds n) as [|c r]; [discriminate |].
  simpl in *. unfold is_number_start. now rewrite H.
Qed.

Lemma decimal_text_read (x : decimal) :
  decimal_of_string (decimal_to_string x) = Some x.
Proof.
  destruct x as [|negative ds n ok]; [reflexivity |].
  unfold decimal_to_string.
  pose proof (digits_text_start ds n ok) as Hstart.
  pose proof (decimal_of_body_text negative ds n ok) as Hread.
  rewrite make_ok with (ok := ok) in Hread.
  destruct negative; cbn [append].
  - exact Hread.
  - destruct (digits_text ds n) as [|c r]; [discriminate |].
    unfold decimal_of_string. simpl in Hstart.
    now rewrite (digit_not_minus c Hstart).
Qed.

Definition decimals : Doubles :=
  {| double := decimal;
     zero := Zero;
     nonzero := decimal_nonzero;
     Number_toString := decimal_to_string;
     StringToNumber := decimal_of_string;
     nonzero_zero := decimal_nonzero_zero;
     zero_text := eq_refl;
     text_chars := decimal_text_chars;
     text_start := decimal_text_start;
     text_read := decimal_text_read |}.

(** Amounts of the sample callers: 100.5, 200 and 5; then 10^21, the least
    amount that prints with an exponent, 10^-7 and 10^-6, and -2.5. *)
Definition hundred_and_half : @double decimals := Digits false "1005" 3 eq_refl.
Definition two_hundred : @double decimals := Digits false "2" 3 eq_refl.
Definition five : @double decimals := Digits false "5" 1 eq_refl.
Definition sextillion : @double decimals := Digits false "1" 22 eq_refl.
Definition tenth_of_millionth : @double decimals := Digits false "1" (-6) eq_refl.
Definition millionth : @double decimals := Digits false "1" (-5) eq_refl.
Definition minus_two_and_half : @double decimals := Digits true "25" 1 eq_refl.

(** ** Sample callers *)

Definition sample : @IPayload decimals :=
  {| action := "pay"; amount := Finite hundred_and_half; currency := "UAH";
     description := "Order 1"; order_id := "order-1"; language := None |}.

Definition shop : LiqPay := constructor "private" "public" false.

Definition sandbox_shop : LiqPay := constructor "private" "public" true.

Definition zero_amount : @IPayload decimals :=
  {| action := "pay"; amount := Finite zero; currency := "UAH";
     description := "Order 1"; order_id := "order-1"; language := None |}.

Definition blank_description : @IPayload decimals :=
  {| action := "pay"; amount := Finite hundred_and_half; currency := "UAH";
     description := EmptyString; order_id := "order-1"; language := None |}.

Definition english : @IPayload decimals :=
  {| action := "pay"; amount := Finite hundred_and_half; currency := "UAH";
     description := "Order 1"; order_id := "order-1"; language := Some "en" |}.

(** A payload that also carries fields the builder owns. *)
Definition conflicting : @object decimals :=
  (literal sample
   ++ [("version", Str "9"); ("public_key", Str "mine"); ("sandbox", Str "1")])%list.

(** A payload of the declared fields, written amount first. *)
Definition amount_first : @object decimals :=
  [("amount", Number (Finite hundred_and_half)); ("action", Str "pay"); ("currency", Str "UAH");
   ("description", Str "Order 1"); ("order_id", Str "order-1")].

Definition ukrainian : @IPayload decimals :=
  {| action := "pay"; amount := Finite hundred_and_half; currency := "UAH";
     description := "Order 1"; order_id := "order-1";
     language := Some Language_UA |}.

Definition dearer : @IPayload decimals :=
  {| action := "pay"; amount := Finite two_hundred; currency := "UAH";
     description := "Order 1"; order_id := "order-1"; language := None |}.

(** Payloads that differ in the description alone. *)
Definition described (d : string) : @IPayload decimals :=
  {| action := "pay"; amount := Finite hundred_and_half; currency := "UAH";
     description := d; order_id := "order-1"; language := None |}.

(** A payload with a field the interface does not declare. *)
Definition with_result_url : @object decimals :=
  (literal sample ++ [("result_url", Str "https://shop.example/thanks")])%list.

(** An instance with another private key. *)
Definition rival : LiqPay := constructor "another" "public" false.

(** A payload with nothing but the three fields validation reads. *)
Definition bare : @object decimals :=
  [("amount", Number (Finite five)); ("currency", Str "USD"); ("description", Str "x")].

(** A payload of the declared fields whose amount is infinite. *)
Definition priceless : @IPayload decimals :=
  {| action := "pay"; amount := Infinity false; currency := "UAH";
     description := "Order 1"; order_id := "order-1"; language := None |}.

(** A payload of the declared fields whose amount prints with an exponent. *)
Definition vast : @IPayload decimals :=
  {| action := "pay"; amount := Finite sextillion; currency := "UAH";
     description := "Order 1"; order_id := "order-1"; language := None |}.

(** * Properties

    The properties are proved for every type of finite doubles of the class
    [Doubles]: an amount is any number, with or without a fraction.  What
    they say of the decoded data rests on the facts of the class: the text
    of a number is a number token, and reading it gives the number back. *)

Section Properties.

Context {D : Doubles}.

(** ** Objects *)

Lemma has_own_lookup (k : string) (o : object) :
  has_own k o = false <-> lookup k o = None.
Proof.
  unfold has_own. destruct (lookup k o); split; congruence.
Qed.

Lemma lookup_replace (k k' : string) (v : value) (o : object) :
  lookup k' (replace k v o) =
  if String.eqb k k'
  then (if has_own k o then Some v else None)
  else lookup k' o.
Proof.
  unfold has_own.
  induction o as [|[k0 v0] o IH]; simpl.
  - now destruct (String.eqb k k').
  - destruct (String.eqb_spec k0 k) as [-> | Hk0]; simpl.
    + destruct (String.eqb k k'); reflexivity.
    + rewrite IH. destruct (String.eqb_spec k k') as [<- | Hk].
      * apply String.eqb_neq in Hk0. now rewrite Hk0.
      * reflexivity.
Qed.

Lemma lookup_insert_index (n : N) (k k' : string) (v : value) (o : object) :
  has_own k o = false ->
  lookup k' (insert_index n k v o) =
  if String.eqb k k' then Some v else lookup k' o.
Proof.
  unfold has_own.
  induction o as [|[k0 v0] o IH]; simpl; intros Hown.
  - reflexivity.
  - destruct (String.eqb_spec k0 k) as [-> | Hk0]; [discriminate |].
    destruct (array_index k0) as [n' |]; [destruct (n' <? n)%N |]; simpl.
    + rewrite (IH Hown).
      destruct (String.eqb_spec k k') as [<- | Hk].
      * apply String.eqb_neq in Hk0. now rewrite Hk0.
      * reflexivity.
    + reflexivity.
    + reflexivity.
Qed.

Lemma lookup_snoc (k k' : string) (v : value) (o : object) :
  has_own k o = false ->
  lookup k' (o ++ [(k, v)])%list =
  if String.eqb k k' then Some v else lookup k' o.
Proof.
  unfold has_own.
  induction o as [|[k0 v0] o IH]; simpl; intros Hown.
  - reflexivity.
  - destruct (String.eqb_spec k0 k) as [-> | Hk0]; [discriminate |].
    rewrite (IH Hown).
    destruct (String.eqb_spec k k') as [<- | Hk].
    + apply String.eqb_neq in Hk0. now rewrite Hk0.
    + reflexivity.
Qed.

(** What a write changes: the written key, and nothing else. *)
Lemma lookup_Set_ (o : object) (k k' : string) (v : value) :
  String.eqb k "__proto__" = false ->
  lookup k' (Set_ o k v) = if String.eqb k k' then Some v else lookup k' o.
Proof.
  intros Hproto. unfold Set_. rewrite Hproto.
  destruct (has_own k o) eqn:Hown.
  - rewrite lookup_replace, Hown. reflexivity.
  - destruct (array_index k).
    + now apply lookup_insert_index.
    + now apply lookup_snoc.
Qed.

Lemma lookup_Set_other (o : object) (k k' : string) (v : value) :
  String.eqb k k' = false -> lookup k' (Set_ o k v) = lookup k' o.
Proof.
  intros Hk. destruct (String.eqb k "__proto__") eqn:Hproto.
  - unfold Set_. now rewrite Hproto.
  - now rewrite lookup_Set_, Hk.
Qed.

Lemma has_own_Set_ (o : object) (k k' : string) (v : value) :
  String.eqb k "__proto__" = false ->
  has_own k' (Set_ o k v) = String.eqb k k' || has_own k' o.
Proof.
  intros H. unfold has_own. rewrite (lookup_Set_ _ _ _ _ H).
  now destruct (String.eqb k k').
Qed.

Lemma keys_replace (k : string) (v : value) (o : object) :
  keys (replace k v o) = keys o.
Proof.
  induction o as [|[k0 v0] o IH]; simpl; [reflexivity |].
  destruct (String.eqb_spec k0 k) as [-> | Hk0]; simpl; [reflexivity |].
  now rewrite IH.
Qed.

(** Where a write puts a key that is neither an array index nor [__proto__]:
    nowhere new when the object has it, at the end otherwise. *)
Lemma keys_Set_ (o : object) (k : string) (v : value) :
  String.eqb k "__proto__" = false -> array_index k = None ->
  keys (Set_ o k v) = if has_own k o then keys o else (keys o ++ [k])%list.
Proof.
  intros Hproto Hidx. unfold Set_. rewrite Hproto, Hidx.
  destruct (has_own k o).
  - apply keys_replace.
  - unfold keys. rewrite map_app. reflexivity.
Qed.

Lemma keys_Set_fresh (o : object) (k : string) (v : value) :
  String.eqb k "__proto__" = false -> array_index k = None ->
  keys (Set_ o k v) = (keys o ++ if has_own k o then [] else [k])%list.
Proof.
  intros Hp Hi. rewrite (keys_Set_ _ _ _ Hp Hi).
  destruct (has_own k o); [now rewrite app_nil_r | reflexivity].
Qed.

Lemma truthy_has_own (o : object) (k : string) :
  ToBoolean (Get o k) = true -> has_own k o = true.
Proof.
  unfold Get, has_own. now destruct (lookup k o).
Qed.

Lemma lookup_not_In (k : string) (o : object) :
  lookup k o = None <-> ~ In k (keys o).
Proof.
  induction o as [|[k0 v0] o IH]; simpl.
  - tauto.
  - destruct (String.eqb_spec k0 k) as [-> | Hk0].
    + split; [discriminate | intros H; exfalso; apply H; now left].
    + rewrite IH. tauto.
Qed.

(** On an object, copying keeps every property but [__proto__]. *)
Lemma lookup_fold_Set_ (k : string) (source target : object) :
  is_object source -> String.eqb k "__proto__" = false ->
  lookup k (fold_left (fun t kv => Set_ t (fst kv) (snd kv)) source target) =
  match lookup k source with
  | Some v => Some v
  | None => lookup k target
  end.
Proof.
  unfold is_object. intros Hnd Hk. revert target.
  induction source as [|[k0 v0] source IH]; intros target; simpl.
  - reflexivity.
  - simpl in Hnd. inversion Hnd as [|? ? Hnotin Hnd']; subst.
    rewrite (IH Hnd').
    destruct (String.eqb_spec k0 k) as [-> | Hk0].
    + apply lookup_not_In in Hnotin. rewrite Hnotin.
      rewrite (lookup_Set_ _ _ _ _ Hk), String.eqb_refl. reflexivity.
    + destruct (lookup k source); [reflexivity |].
      unfold Set_. destruct (String.eqb k0 "__proto__") eqn:Hp0; [reflexivity |].
      fold (Set_ target k0 v0).
      assert (Hset : lookup k (Set_ target k0 v0)
                     = if String.eqb k0 k then Some v0 else lookup k target)
        by now apply lookup_Set_.
      unfold Set_ in Hset. rewrite Hp0 in Hset. rewrite Hset.
      apply String.eqb_neq in Hk0. now rewrite Hk0.
Qed.

(** Copying creates no property the source does not have. *)
Lemma lookup_fold_Set_absent (k : string) (source target : object) :
  lookup k source = None ->
  lookup k (fold_left (fun t kv => Set_ t (fst kv) (snd kv)) source target)
  = lookup k target.
Proof.
  revert target. induction source as [|[k0 v0] source IH]; intros target H;
    simpl in *.
  - reflexivity.
  - destruct (String.eqb k0 k) eqn:E; [discriminate |].
    rewrite (IH _ H). now apply lookup_Set_other.
Qed.

Lemma lookup_Object_assign (k : string) (payload : object) :
  is_object payload -> String.eqb k "__proto__" = false ->
  lookup k (Object_assign [] payload) = lookup k payload.
Proof.
  intros Hobj Hk. unfold Object_assign.
  rewrite (lookup_fold_Set_ _ _ _ Hobj Hk). now destruct (lookup k payload).
Qed.

Lemma Get_Object_assign (k : string) (payload : object) :
  is_object payload -> String.eqb k "__proto__" = false ->
  Get (Object_assign [] payload) k = Get payload k.
Proof.
  intros Hobj Hk. unfold Get. now rewrite lookup_Object_assign.
Qed.

Lemma fold_Set_plain (source target : object) :
  NoDup (keys (target ++ source)%list) ->
  Forall plain_key (keys source) ->
  fold_left (fun t kv => Set_ t (fst kv) (snd kv)) source target
  = (target ++ source)%list.
Proof.
  revert target. induction source as [|[k v] source IH]; intros target Hnd Hplain.
  - simpl. now rewrite app_nil_r.
  - simpl in Hplain. inversion Hplain as [|? ? [Hindex Hproto] Hplain']; subst.
    assert (Hown : has_own k target = false).
    { apply has_own_lookup, lookup_not_In. intros Hin.
      unfold keys in Hnd. rewrite map_app in Hnd. simpl in Hnd.
      apply NoDup_remove_2 in Hnd. apply Hnd, in_or_app. now left. }
    cbn [fold_left fst snd]. unfold Set_ at 2. rewrite Hproto, Hown, Hindex.
    rewrite IH.
    + now rewrite <- app_assoc.
    + now rewrite <- app_assoc.
    + assumption.
Qed.

(** Copying an object whose keys are plain gives the object itself. *)
Lemma Object_assign_plain (payload : object) :
  is_object payload -> Forall plain_key (keys payload) ->
  Object_assign [] payload = payload.
Proof.
  intros Hobj Hplain. unfold Object_assign. now rewrite fold_Set_plain.
Qed.

Lemma In_keys_insert_index (n : N) (k k' : string) (v : value) (o : object) :
  In k' (keys (insert_index n k v o)) <-> k' = k \/ In k' (keys o).
Proof.
  induction o as [|[k0 v0] o IH]; simpl.
  - intuition.
  - destruct (array_index k0) as [n0 |]; [destruct (n0 <? n)%N |]; simpl;
      rewrite ?IH; intuition.
Qed.

Lemma NoDup_insert_index (n : N) (k : string) (v : value) (o : object) :
  ~ In k (keys o) -> NoDup (keys o) -> NoDup (keys (insert_index n k v o)).
Proof.
  induction o as [|[k0 v0] o IH]; simpl; intros Hk Hnd.
  - repeat constructor. simpl. tauto.
  - inversion Hnd as [|? ? Hk0 Hnd']; subst.
    assert (Hcons : NoDup (k :: k0 :: keys o)).
    { constructor; [simpl; tauto | assumption]. }
    destruct (array_index k0) as [n0 |]; [destruct (n0 <? n)%N |]; simpl;
      try exact Hcons.
    constructor.
    + rewrite In_keys_insert_index. intros [-> | H]; tauto.
    + apply IH; tauto.
Qed.

Lemma NoDup_keys_Set_ (o : object) (k : string) (v : value) :
  NoDup (keys o) -> NoDup (keys (Set_ o k v)).
Proof.
  intros Hnd. unfold Set_.
  destruct (String.eqb k "__proto__"); [exact Hnd |].
  destruct (has_own k o) eqn:Hown.
  - now rewrite keys_replace.
  - apply has_own_lookup, lookup_not_In in Hown.
    destruct (array_index k).
    + now apply NoDup_insert_index.
    + unfold keys. rewrite map_app. simpl.
      apply NoDup_app; [assumption | repeat constructor; simpl; tauto |].
      intros x Hx [<- | []]. now apply Hown.
Qed.

Lemma NoDup_keys_fold_Set_ (source target : object) :
  NoDup (keys target) ->
  NoDup (keys (fold_left (fun t kv => Set_ t (fst kv) (snd kv)) source target)).
Proof.
  revert target. induction source as [|[k v] source IH]; intros target H; simpl.
  - exact H.
  - apply IH. now apply NoDup_keys_Set_.
Qed.

Lemma lookup_json_image (k : string) (o : object) :
  is_object o ->
  lookup k (json_image o) =
  match lookup k o with
  | Some v => json_value v
  | None => None
  end.
Proof.
  unfold is_object.
  induction o as [|[k0 v0] o IH]; simpl; intros Hnd; [reflexivity |].
  inversion Hnd as [|? ? Hk0 Hnd']; subst.
  destruct (String.eqb_spec k0 k) as [-> | Hne].
  - destruct (json_value v0) as [v' |]; simpl.
    + now rewrite String.eqb_refl.
    + rewrite (IH Hnd'). apply lookup_not_In in Hk0. now rewrite Hk0.
  - destruct (json_value v0) as [v' |]; simpl.
    + apply String.eqb_neq in Hne. rewrite Hne. now apply IH.
    + now apply IH.
Qed.

(** ** The methods, unfolded *)

Lemma payment_of_eq (payload : object) (this : LiqPay) :
  payment_of payload this =
  let copy := Object_assign [] payload in
  let with_language :=
    if negb (ToBoolean (Get copy "language"))
    then Set_ copy "language" (Str Language_UA) else copy in
  let with_sandbox :=
    if enableSandbox this
    then Set_ with_language "sandbox" (Str "1") else with_language in
  Set_ (Set_ with_sandbox "version" (Str (apiVersion this)))
       "public_key" (Str (publicKey this)).
Proof. reflexivity. Qed.

Lemma preparePayment_eq (payload : object) (this : LiqPay) :
  preparePayment payload this = (inr (payment_of payload this), this).
Proof. reflexivity. Qed.

Lemma lookup_payment_of (payload : object) (this : LiqPay) (k : string) :
  lookup k (payment_of payload this) =
  let copy := Object_assign [] payload in
  if String.eqb "public_key" k then Some (Str (publicKey this))
  else if String.eqb "version" k then Some (Str (apiVersion this))
  else if enableSandbox this && String.eqb "sandbox" k then Some (Str "1")
  else if negb (ToBoolean (Get copy "language")) && String.eqb "language" k
       then Some (Str Language_UA)
       else lookup k copy.
Proof.
  rewrite payment_of_eq. cbv zeta.
  rewrite !lookup_Set_ by reflexivity.
  destruct (String.eqb "public_key" k); [reflexivity |].
  destruct (String.eqb "version" k); [reflexivity |].
  destruct (enableSandbox this); cbn [andb].
  - rewrite lookup_Set_ by reflexivity.
    destruct (String.eqb "sandbox" k); [reflexivity |].
    destruct (negb (ToBoolean (Get (Object_assign [] payload) "language")));
      cbn [andb]; [| reflexivity].
    now rewrite lookup_Set_ by reflexivity.
  - destruct (negb (ToBoolean (Get (Object_assign [] payload) "language")));
      cbn [andb]; [| reflexivity].
    now rewrite lookup_Set_ by reflexivity.
Qed.

Lemma Get_payment_of (payload : object) (this : LiqPay) (k : string) :
  Get (payment_of payload this) k =
  let copy := Object_assign [] payload in
  if String.eqb "public_key" k then Str (publicKey this)
  else if String.eqb "version" k then Str (apiVersion this)
  else if enableSandbox this && String.eqb "sandbox" k then Str "1"
  else if negb (ToBoolean (Get copy "language")) && String.eqb "language" k
       then Str Language_UA
       else Get copy k.
Proof.
  unfold Get at 1. rewrite lookup_payment_of. cbv zeta.
  destruct (String.eqb "public_key" k); [reflexivity |].
  destruct (String.eqb "version" k); [reflexivity |].
  destruct (enableSandbox this && String.eqb "sandbox" k); [reflexivity |].
  destruct (negb (ToBoolean (Get (Object_assign [] payload) "language"))
            && String.eqb "language" k); reflexivity.
Qed.

Lemma Get_payment_version (payload : object) (this : LiqPay) :
  Get (payment_of payload this) "version" = Str (apiVersion this).
Proof. rewrite Get_payment_of. reflexivity. Qed.

Lemma Get_payment_public_key (payload : object) (this : LiqPay) :
  Get (payment_of payload this) "public_key" = Str (publicKey this).
Proof. rewrite Get_payment_of. reflexivity. Qed.

Lemma Get_payment_business (payload : object) (this : LiqPay) (k : string) :
  is_object payload ->
  In k ["amount"; "currency"; "description"] ->
  Get (payment_of payload this) k = Get payload k.
Proof.
  intros Hobj Hk. rewrite Get_payment_of. cbv zeta.
  assert (Hcopy : Get (Object_assign [] payload) k = Get payload k).
  { apply Get_Object_assign; [assumption |].
    simpl in Hk. decompose [or] Hk; subst; try reflexivity; contradiction. }
  simpl in Hk. decompose [or] Hk; subst; try contradiction;
    cbn [String.eqb Ascii.eqb Bool.eqb andb]; rewrite ?andb_false_r;
    exact Hcopy.
Qed.

Lemma Get_payment_language (payload : object) (this : LiqPay) :
  is_object payload ->
  Get (payment_of payload this) "language" =
  if ToBoolean (Get payload "language")
  then Get payload "language" else Str Language_UA.
Proof.
  intros Hobj. rewrite Get_payment_of. cbv zeta.
  rewrite (Get_Object_assign "language" payload Hobj eq_refl).
  cbn [String.eqb Ascii.eqb Bool.eqb andb]. rewrite andb_false_r, andb_true_r.
  now destruct (ToBoolean (Get payload "language")).
Qed.

Lemma lookup_payment_business (payload : object) (this : LiqPay) (k : string) :
  is_object payload -> In k business_fields ->
  lookup k (payment_of payload this) = lookup k payload.
Proof.
  intros Hobj Hk. rewrite lookup_payment_of. cbv zeta.
  simpl in Hk. decompose [or] Hk; subst; try contradiction;
    cbn [String.eqb Ascii.eqb Bool.eqb andb]; rewrite ?andb_false_r;
    now apply lookup_Object_assign.
Qed.

Lemma payment_of_configuration (payload : object) (this1 this2 : LiqPay) :
  publicKey this1 = publicKey this2 ->
  enableSandbox this1 = enableSandbox this2 ->
  apiVersion this1 = apiVersion this2 ->
  payment_of payload this1 = payment_of payload this2.
Proof.
  intros Hp Hs Hv. rewrite !payment_of_eq. cbv zeta. now rewrite Hp, Hs, Hv.
Qed.

Lemma payment_of_is_object (payload : object) (this : LiqPay) :
  is_object (payment_of payload this).
Proof.
  unfold is_object. rewrite payment_of_eq. cbv zeta.
  do 2 apply NoDup_keys_Set_.
  assert (Hcopy : NoDup (keys (Object_assign [] payload)))
    by (apply NoDup_keys_fold_Set_; constructor).
  assert (Hlanguage : NoDup (keys
            (if negb (ToBoolean (Get (Object_assign [] payload) "language"))
             then Set_ (Object_assign [] payload) "language" (Str Language_UA)
             else Object_assign [] payload))).
  { destruct (negb (ToBoolean (Get (Object_assign [] payload) "language")));
      [now apply NoDup_keys_Set_ | assumption]. }
  destruct (enableSandbox this); [now apply NoDup_keys_Set_ | assumption].
Qed.

(** The keys of the payment: those of the copy, in its order, then the keys
    the builder had to add. *)
Lemma keys_payment_of (payload : object) (this : LiqPay) :
  keys (payment_of payload this)
  = (keys (Object_assign [] payload)
     ++ added_keys (Object_assign [] payload) this)%list.
Proof.
  rewrite payment_of_eq. cbv zeta.
  set (copy := Object_assign [] payload).
  rewrite !keys_Set_fresh by reflexivity.
  rewrite !has_own_Set_ by reflexivity.
  cbn [String.eqb Ascii.eqb Bool.eqb orb].
  unfold added_keys, builder_keys.
  destruct (ToBoolean (Get copy "language")) eqn:Hlanguage; cbn [negb].
  - apply truthy_has_own in Hlanguage.
    destruct (enableSandbox this).
    + rewrite keys_Set_fresh by reflexivity.
      rewrite !has_own_Set_ by reflexivity.
      cbn [String.eqb Ascii.eqb Bool.eqb orb app filter].
      rewrite Hlanguage. cbn [negb].
      destruct (has_own "sandbox" copy), (has_own "version" copy),
        (has_own "public_key" copy); cbn [negb app];
        rewrite <- ?app_assoc; reflexivity.
    + cbn [app filter]. rewrite Hlanguage. cbn [negb].
      destruct (has_own "version" copy), (has_own "public_key" copy);
        cbn [negb app]; rewrite <- ?app_assoc; reflexivity.
  - destruct (enableSandbox this).
    + rewrite !keys_Set_fresh by reflexivity.
      rewrite !has_own_Set_ by reflexivity.
      cbn [String.eqb Ascii.eqb Bool.eqb orb app filter].
      destruct (has_own "language" copy), (has_own "sandbox" copy),
        (has_own "version" copy), (has_own "public_key" copy);
        cbn [negb app]; rewrite <- ?app_assoc; reflexivity.
    + rewrite !keys_Set_fresh by reflexivity.
      rewrite !has_own_Set_ by reflexivity.
      cbn [String.eqb Ascii.eqb Bool.eqb orb app filter].
      destruct (has_own "language" copy),
        (has_own "version" copy), (has_own "public_key" copy);
        cbn [negb app]; rewrite <- ?app_assoc; reflexivity.
Qed.

Lemma literal_is_object (p : IPayload) : is_object (literal p).
Proof.
  unfold is_object, literal.
  destruct (language p); simpl;
    repeat constructor; simpl; intuition discriminate.
Qed.

(** A payload written as the interface declares it is serialised in the order
    the specification lists. *)
Lemma literal_field_order (p : IPayload) (this : LiqPay) :
  keys (json_image (payment_of (literal p) this))
  = spec_field_order (enableSandbox this).
Proof.
  destruct p as [a m c d i l], this as [base image version key pub sandbox].
  destruct l as [[|x l] |], m as [z | | | neg], sandbox; reflexivity.
Qed.

Lemma verifyPaymentData_eq (payment : object) (this : LiqPay) :
  verifyPaymentData payment this =
  if negb (ToBoolean (Get payment "version"))
  then (inl (TypeError "Version must be specified!"), this)
  else if negb (ToBoolean (Get payment "amount"))
  then (inl (TypeError "Amount must be specified!"), this)
  else if negb (ToBoolean (Get payment "currency"))
  then (inl (TypeError "Currency must be specified!"), this)
  else if negb (ToBoolean (Get payment "description"))
  then (inl (TypeError "Description must be specified!"), this)
  else (inr tt, this).
Proof.
  unfold verifyPaymentData, bind, when_, throw, ret.
  destruct (negb (ToBoolean (Get payment "version"))); [reflexivity |].
  destruct (negb (ToBoolean (Get payment "amount"))); [reflexivity |].
  destruct (negb (ToBoolean (Get payment "currency"))); [reflexivity |].
  destruct (negb (ToBoolean (Get payment "description"))); reflexivity.
Qed.

Lemma verifyPaymentData_first_missing (payment : object) (this : LiqPay) :
  verifyPaymentData payment this =
  match first_missing payment with
  | Some field => (inl (ValidationError field), this)
  | None => (inr tt, this)
  end.
Proof.
  rewrite verifyPaymentData_eq. unfold first_missing, required_fields. simpl.
  destruct (negb (ToBoolean (Get payment "version"))); [reflexivity |].
  destruct (negb (ToBoolean (Get payment "amount"))); [reflexivity |].
  destruct (negb (ToBoolean (Get payment "currency"))); [reflexivity |].
  destruct (negb (ToBoolean (Get payment "description"))); reflexivity.
Qed.

Lemma getObjData_eq (payload : object) (this : LiqPay) :
  getObjData payload this =
  match verifyPaymentData (payment_of payload this) this with
  | (inl e, _) => (inl e, this)
  | (inr _, _) =>
      let d := base64 (Buffer_from (JSON_stringify (payment_of payload this))) in
      (inr {| data := d;
              signature := base64 (SHA1.digest (Buffer_from (signed_text this d))) |},
       this)
  end.
Proof.
  unfold getObjData. unfold bind at 1. rewrite preparePayment_eq.
  unfold bind at 1. rewrite verifyPaymentData_eq.
  destruct (negb (ToBoolean (Get (payment_of payload this) "version")));
    [reflexivity |].
  destruct (negb (ToBoolean (Get (payment_of payload this) "amount")));
    [reflexivity |].
  destruct (negb (ToBoolean (Get (payment_of payload this) "currency")));
    [reflexivity |].
  destruct (negb (ToBoolean (Get (payment_of payload this) "description")));
    reflexivity.
Qed.

Lemma valid_eq (payload : object) (this : LiqPay) :
  valid payload this =
  match verifyPaymentData (payment_of payload this) this with
  | (inr _, _) => true
  | (inl _, _) => false
  end.
Proof.
  unfold valid. unfold bind. rewrite preparePayment_eq. reflexivity.
Qed.

Lemma getObjData_valid (payload : object) (this : LiqPay) :
  valid payload this = true ->
  getObjData payload this =
  (inr {| data := base64 (Buffer_from (JSON_stringify (payment_of payload this)));
          signature :=
            base64 (SHA1.digest (Buffer_from
              (signed_text this
                 (base64 (Buffer_from (JSON_stringify (payment_of payload this))))))) |},
   this).
Proof.
  rewrite valid_eq, getObjData_eq.
  destruct (verifyPaymentData (payment_of payload this) this) as [[e | u] s];
    [discriminate | reflexivity].
Qed.

(** Queries leave the instance as it is. *)
Lemma getObjData_frame (payload : object) (this : LiqPay) :
  snd (getObjData payload this) = this.
Proof.
  rewrite getObjData_eq.
  now destruct (verifyPaymentData (payment_of payload this) this) as [[e | u] s].
Qed.

Lemma getHtmlForm_frame (payload : object) (this : LiqPay) :
  snd (getHtmlForm payload this) = this.
Proof.
  unfold getHtmlForm. unfold bind at 1.
  pose proof (getObjData_frame payload this) as H.
  destruct (getObjData payload this) as [[e | sig] s]; simpl in H; subst s;
    reflexivity.
Qed.

Lemma setApiVersion_eq (v : string) (this : LiqPay) :
  setApiVersion v this =
  if String.eqb v EmptyString
  then (inl (TypeError "API version not specified!"), this)
  else (inr tt,
        {| baseUrl := baseUrl this; imageSrc := imageSrc this; apiVersion := v;
           privateKey := privateKey this; publicKey := publicKey this;
           enableSandbox := enableSandbox this |}).
Proof.
  unfold setApiVersion, bind, when_, throw, ret, assign_apiVersion. simpl.
  destruct (String.eqb v EmptyString); reflexivity.
Qed.

(** ** Base64 can be undone *)

Ltac narith :=
  zify;
  repeat match goal with
         | |- context [Z.rem ?a ?b] => rewrite (Z.rem_mod_nonneg a b) by lia
         | H : context [Z.rem ?a ?b] |- _ =>
             rewrite (Z.rem_mod_nonneg a b) in H by lia
         end;
  Z.div_mod_to_equations; lia.

Ltac bytes_eq :=
  repeat match goal with
         | |- Some _ = Some _ => apply f_equal
         | |- cons _ _ = cons _ _ => apply (f_equal2 (@cons N))
         | |- nil = nil => reflexivity
         end.

Lemma group_div (a b m : N) : (b < m -> (a * m + b) / m = a)%N.
Proof.
  intros H. rewrite N.div_add_l by lia. rewrite N.div_small by assumption. lia.
Qed.

Lemma group_mod (a b m : N) : (b < m -> (a * m + b) mod m = b)%N.
Proof.
  intros H. rewrite N.add_comm, N.Div0.mod_add. now apply N.mod_small.
Qed.

Lemma below_64_cases (P : N -> Prop) :
  Forall P (map N.of_nat (seq 0 64)) -> forall n, (n < 64)%N -> P n.
Proof.
  intros H n Hn. rewrite Forall_forall in H. apply H.
  rewrite <- (N2Nat.id n). apply in_map. apply in_seq. lia.
Qed.

Lemma base64_index_char (n : N) :
  (n < 64)%N -> base64_index (base64_char n) = Some n.
Proof.
  apply (below_64_cases (fun n => base64_index (base64_char n) = Some n)).
  repeat constructor.
Qed.

Lemma base64_decode_encode_bounded (n : nat) (b : bytes) :
  (List.length b <= n)%nat -> Forall is_byte b ->
  base64_decode (base64 b) = Some b.
Proof.
  unfold is_byte. revert b.
  induction n as [|n IH]; intros b Hlen Hb.
  - destruct b; [reflexivity | simpl in Hlen; lia].
  - destruct b as [|x [|y [|z rest]]].
    + reflexivity.
    + inversion Hb as [|? ? Hx _]; subst.
      cbn [base64 base64_decode].
      rewrite !base64_index_char by narith.
      change (base64_index "=") with (@None N). cbn.
      bytes_eq. narith.
    + inversion Hb as [|? ? Hx Hb']; subst.
      inversion Hb' as [|? ? Hy _]; subst.
      cbn [base64 base64_decode].
      rewrite !base64_index_char by narith.
      change (base64_index "=") with (@None N). cbn.
      rewrite ?group_mod, ?group_div by narith.
      bytes_eq; narith.
    + inversion Hb as [|? ? Hx Hb']; subst.
      inversion Hb' as [|? ? Hy Hb'']; subst.
      inversion Hb'' as [|? ? Hz Hrest]; subst.
      cbn [base64 base64_decode].
      rewrite !base64_index_char by narith.
      rewrite IH; [| simpl in Hlen; lia | assumption].
      rewrite ?group_mod, ?group_div by narith.
      bytes_eq; try narith; reflexivity.
Qed.

Lemma base64_decode_encode (b : bytes) :
  Forall is_byte b -> base64_decode (base64 b) = Some b.
Proof.
  apply (base64_decode_encode_bounded (List.length b)). lia.
Qed.

Lemma get_beyond (n : nat) (s : string) :
  (String.length s <= n)%nat -> String.get n s = None.
Proof.
  revert n. induction s as [|c s IH]; intros n H; simpl in *.
  - reflexivity.
  - destruct n as [|n]; [lia |]. apply IH. lia.
Qed.

Lemma base64_char_no_quote (n : N) : Ascii.eqb dquote (base64_char n) = false.
Proof.
  destruct (N.ltb_spec n 64) as [Hlt | Hge].
  - revert n Hlt.
    apply (below_64_cases (fun n => Ascii.eqb dquote (base64_char n) = false)).
    repeat constructor.
  - unfold base64_char. rewrite get_beyond; [reflexivity |].
    change (String.length base64_alphabet) with 64%nat. lia.
Qed.

Lemma bytes_ind3 (P : bytes -> Prop) :
  P [] -> (forall x, P [x]) -> (forall x y, P [x; y]) ->
  (forall x y z rest, P rest -> P (x :: y :: z :: rest)) ->
  forall b, P b.
Proof.
  intros H0 H1 H2 H3.
  assert (H : forall n b, (List.length b <= n)%nat -> P b).
  { induction n as [|n IH]; intros b Hlen.
    - destruct b; [exact H0 | simpl in Hlen; lia].
    - destruct b as [|x [|y [|z rest]]]; auto.
      apply H3, IH. simpl in Hlen. lia. }
  intros b. now apply (H (List.length b)).
Qed.

Lemma base64_no_quote (b : bytes) : contains_char dquote (base64 b) = false.
Proof.
  induction b as [| x | x y | x y z rest IH] using bytes_ind3;
    cbn [base64 contains_char]; rewrite ?base64_char_no_quote, ?IH; reflexivity.
Qed.

Lemma Buffer_from_bytes (s : string) : Forall is_byte (Buffer_from s).
Proof.
  unfold Buffer_from, is_byte. apply Forall_forall. intros x Hx.
  apply in_map_iff in Hx. destruct Hx as [c [<- _]]. apply N_ascii_bounded.
Qed.

Lemma Buffer_toString_from (s : string) : Buffer_toString (Buffer_from s) = s.
Proof.
  unfold Buffer_toString, Buffer_from. rewrite map_map.
  rewrite (map_ext _ (fun c => c)) by apply ascii_N_embedding.
  rewrite map_id. apply string_of_list_ascii_of_string.
Qed.

Lemma base64_injective (a b : bytes) :
  Forall is_byte a -> Forall is_byte b -> base64 a = base64 b -> a = b.
Proof.
  intros Ha Hb H. apply (f_equal base64_decode) in H.
  rewrite !base64_decode_encode in H by assumption. congruence.
Qed.

Lemma Buffer_from_injective (s t : string) :
  Buffer_from s = Buffer_from t -> s = t.
Proof.
  intros H. apply (f_equal Buffer_toString) in H.
  now rewrite !Buffer_toString_from in H.
Qed.

(** ** Digests *)

Lemma be_bytes_are_bytes (count : nat) (x : N) :
  Forall is_byte (SHA1.be_bytes count x).
Proof.
  revert x. induction count as [|count IH]; intros x; simpl.
  - constructor.
  - apply Forall_app. split; [apply IH |].
    repeat constructor. unfold is_byte. now apply N.mod_lt.
Qed.

Lemma digest_bytes (msg : bytes) : Forall is_byte (SHA1.digest msg).
Proof.
  unfold SHA1.digest. cbv zeta.
  do 4 (apply Forall_app; split; [apply be_bytes_are_bytes |]).
  apply be_bytes_are_bytes.
Qed.

Lemma length_be_bytes (count : nat) (x : N) :
  List.length (SHA1.be_bytes count x) = count.
Proof.
  revert x. induction count as [|count IH]; intros x; simpl.
  - reflexivity.
  - rewrite length_app, IH. simpl. lia.
Qed.

Lemma length_digest (msg : bytes) : List.length (SHA1.digest msg) = 20%nat.
Proof.
  unfold SHA1.digest. cbv zeta. now rewrite !length_app, !length_be_bytes.
Qed.

(** ** JSON.stringify can be undone *)

Lemma parse_quote_char (c : ascii) (t : string) :
  parse_string_body (quote_char c ++ t) = prepend (str1 c) (parse_string_body t).
Proof.
  destruct c as [[] [] [] [] [] [] [] []]; reflexivity.
Qed.

Lemma parse_quote_body (s r : string) :
  parse_string_body (quote_body s ++ String dquote r) = Some (s, r).
Proof.
  induction s as [|c s IH]; simpl.
  - reflexivity.
  - rewrite append_assoc, parse_quote_char, IH. reflexivity.
Qed.

Lemma parse_QuoteJSONString (s r : string) :
  exists t, QuoteJSONString s ++ r = String dquote t
            /\ parse_string_body t = Some (s, r).
Proof.
  exists (quote_body s ++ String dquote r). split.
  - unfold QuoteJSONString, str1. simpl. now rewrite append_assoc.
  - apply parse_quote_body.
Qed.

Lemma span_number_app (a r : string) :
  all_chars is_number_char a = true ->
  starts_with is_number_char r = false ->
  span_number (a ++ r) = (a, r).
Proof.
  intros Ha Hr. induction a as [|c a IH]; simpl in *.
  - destruct r as [|c r]; [reflexivity |]. simpl in *. now rewrite Hr.
  - apply andb_true_iff in Ha. destruct Ha as [Hc Ha].
    rewrite Hc, (IH Ha). reflexivity.
Qed.

Lemma parse_value_number (c : ascii) (a r : string) :
  is_number_start c = true ->
  parse_value (String c a ++ r) =
  let (num, rest) := span_number (String c a ++ r) in
  match StringToNumber num with
  | Some x => Some (Number (Finite x), rest)
  | None => None
  end.
Proof.
  destruct c as [[] [] [] [] [] [] [] []]; intros H; try discriminate H;
    reflexivity.
Qed.

Lemma parse_value_finite (x : double) (r : string) :
  starts_with is_number_char r = false ->
  parse_value (Number_toString x ++ r) = Some (Number (Finite x), r).
Proof.
  intros Hr. pose proof (text_chars x) as Hall.
  pose proof (text_start x) as Hfirst.
  destruct (Number_toString x) as [|c a] eqn:E; [discriminate |].
  rewrite parse_value_number by exact Hfirst.
  rewrite span_number_app by assumption.
  rewrite <- E, text_read. reflexivity.
Qed.

Lemma parse_value_text (v : value) (text r : string) :
  is_json_value v -> SerializeJSONProperty v = Some text ->
  starts_with is_number_char r = false ->
  parse_value (text ++ r) = Some (v, r).
Proof.
  unfold is_json_value. intros Hv Htext Hr.
  destruct v as [| | [] | [z | | |] | s]; simpl in *;
    try discriminate; injection Htext as <-.
  - reflexivity.
  - reflexivity.
  - reflexivity.
  - now apply parse_value_finite.
  - destruct (parse_QuoteJSONString s r) as [t [-> Ht]].
    simpl. rewrite Ht. reflexivity.
Qed.

Lemma parse_member_text (k : string) (v : value) (text r : string) :
  is_json_value v -> SerializeJSONProperty v = Some text ->
  starts_with is_number_char r = false ->
  parse_member (QuoteJSONString k ++ ":" ++ text ++ r) = Some ((k, v), r).
Proof.
  intros Hv Htext Hr.
  destruct (parse_QuoteJSONString k (":" ++ text ++ r)) as [t [-> Ht]].
  simpl. rewrite Ht. simpl.
  rewrite (parse_value_text v text r Hv Htext Hr). reflexivity.
Qed.

Lemma json_value_idempotent (v v' : value) :
  json_value v = Some v' -> is_json_value v'.
Proof.
  unfold is_json_value.
  destruct v as [| | b | [z | | |] | s]; simpl; intros [= <-]; reflexivity.
Qed.

Lemma json_value_text (v v' : value) :
  json_value v = Some v' -> SerializeJSONProperty v = SerializeJSONProperty v'.
Proof.
  destruct v as [| | b | [z | | |] | s]; simpl; intros [= <-];
    cbn; rewrite ?zero_text; reflexivity.
Qed.

Lemma json_value_defined (v : value) :
  json_value v = None <-> SerializeJSONProperty v = None.
Proof.
  destruct v as [| | [] | [z | | |] | s]; simpl; split; congruence.
Qed.

Lemma json_image_values (o : object) :
  Forall (fun kv => is_json_value (snd kv)) (json_image o).
Proof.
  induction o as [|[k v] o IH]; simpl; [constructor |].
  destruct (json_value v) as [v' |] eqn:E; [| exact IH].
  constructor; [| exact IH]. simpl. now apply json_value_idempotent with v.
Qed.

Lemma serialize_members_image (o : object) :
  serialize_members (json_image o) = serialize_members o.
Proof.
  induction o as [|[k v] o IH]; simpl; [reflexivity |].
  destruct (json_value v) as [v' |] eqn:E.
  - simpl. rewrite <- (json_value_text v v' E), IH. reflexivity.
  - apply json_value_defined in E. now rewrite E.
Qed.

Lemma length_serialize_members (o : object) :
  Forall (fun kv => is_json_value (snd kv)) o ->
  List.length (serialize_members o) = List.length o.
Proof.
  induction 1 as [|[k v] o Hv _ IH]; simpl; [reflexivity |].
  destruct (SerializeJSONProperty v) eqn:E.
  - simpl. now rewrite IH.
  - apply json_value_defined in E. unfold is_json_value in Hv. simpl in Hv.
    congruence.
Qed.

Lemma serialize_members_cons (k : string) (v : value) (o : object) :
  serialize_members ((k, v) :: o) =
  match SerializeJSONProperty v with
  | Some text => (QuoteJSONString k ++ ":" ++ text) :: serialize_members o
  | None => serialize_members o
  end.
Proof. reflexivity. Qed.

Lemma parse_members_S (fuel : nat) (s : string) :
  parse_members (S fuel) s =
  match parse_member s with
  | Some (m, String c rest) =>
      if Ascii.eqb c "}" then
        if String.eqb rest EmptyString then Some [m] else None
      else if Ascii.eqb c "," then
        match parse_members fuel rest with
        | Some ms => Some (m :: ms)
        | None => None
        end
      else None
  | _ => None
  end.
Proof. reflexivity. Qed.

Lemma join_cons2 (sep p q : string) (rest : list string) :
  join sep (p :: q :: rest) = p ++ sep ++ join sep (q :: rest).
Proof. reflexivity. Qed.

Lemma parse_members_text (fuel : nat) (o : object) :
  Forall (fun kv => is_json_value (snd kv)) o ->
  o <> [] -> (List.length o <= fuel)%nat ->
  parse_members fuel (join "," (serialize_members o) ++ "}") = Some o.
Proof.
  intros Hvals. revert fuel.
  induction Hvals as [|[k v] o Hv Hvals IH]; intros fuel Hne Hfuel.
  - congruence.
  - destruct fuel as [|fuel]; [simpl in Hfuel; lia |].
    simpl in Hv. rewrite serialize_members_cons, parse_members_S.
    destruct (SerializeJSONProperty v) as [text |] eqn:E.
    2:{ apply json_value_defined in E. unfold is_json_value in Hv. congruence. }
    destruct o as [|[k' v'] o'].
    + change (join "," ((QuoteJSONString k ++ ":" ++ text) :: serialize_members []))
        with (QuoteJSONString k ++ ":" ++ text).
      rewrite !append_assoc.
      rewrite (parse_member_text k v text "}" Hv E eq_refl). reflexivity.
    + assert (Hnext : exists m ms,
                 serialize_members ((k', v') :: o') = m :: ms).
      { pose proof (length_serialize_members _ Hvals) as Hl.
        destruct (serialize_members ((k', v') :: o')) as [|m ms];
          [discriminate | eauto]. }
      destruct Hnext as [m [ms Hnext]].
      assert (IH' := IH fuel ltac:(discriminate) ltac:(simpl in *; lia)).
      rewrite Hnext in *. rewrite join_cons2, !append_assoc.
      rewrite (parse_member_text k v text
                 ("," ++ join "," (m :: ms) ++ "}") Hv E eq_refl).
      change ("," ++ join "," (m :: ms) ++ "}")
        with (String "," (join "," (m :: ms) ++ "}")).
      cbv iota beta. change (Ascii.eqb "," "}") with false.
      change (Ascii.eqb "," ",") with true. cbv iota.
      rewrite IH'. reflexivity.
Qed.

Lemma length_join (sep : string) (parts : list string) :
  Forall (fun p => p <> EmptyString) parts ->
  (List.length parts <= String.length (join sep parts ++ "}"))%nat.
Proof.
  induction 1 as [|p parts Hp Hparts IH].
  - simpl. lia.
  - destruct parts as [|q parts].
    + simpl. destruct p; [congruence | simpl; lia].
    + rewrite join_cons2, !append_assoc, length_append.
      rewrite length_append.
      destruct p; [congruence |]. simpl String.length in *. simpl List.length in *.
      lia.
Qed.

Lemma serialize_members_nonempty (o : object) :
  Forall (fun p => p <> EmptyString) (serialize_members o).
Proof.
  induction o as [|[k v] o IH]; [constructor |].
  rewrite serialize_members_cons.
  destruct (SerializeJSONProperty v); [| exact IH].
  constructor; [discriminate | exact IH].
Qed.

(** Parsing the text of an object gives back what the text keeps of it. *)
Lemma JSON_members_stringify (o : object) :
  JSON_members (JSON_stringify o) = Some (json_image o).
Proof.
  unfold JSON_stringify. rewrite <- serialize_members_image.
  pose proof (json_image_values o) as Hvals.
  destruct (json_image o) as [|[k v] o'] eqn:E.
  - reflexivity.
  - change ("{" ++ join "," (serialize_members ((k, v) :: o')) ++ "}")
      with (String "{" (join "," (serialize_members ((k, v) :: o')) ++ "}")).
    unfold JSON_members. change (Ascii.eqb "{" "{") with true. cbv iota.
    pose proof (length_serialize_members _ Hvals) as Hlen.
    pose proof (length_join "," _ (serialize_members_nonempty ((k, v) :: o')))
      as Hfuel.
    rewrite parse_members_text; [| assumption | discriminate | lia].
    replace (String.eqb (join "," (serialize_members ((k, v) :: o')) ++ "}") "}")
      with false; [reflexivity |].
    rewrite serialize_members_cons in *. inversion Hvals as [|? ? Hv _]; subst.
    simpl in Hv.
    destruct (SerializeJSONProperty v) eqn:Ev.
    2:{ apply json_value_defined in Ev. unfold is_json_value in Hv. congruence. }
    destruct (serialize_members o'); reflexivity.
Qed.

Lemma JSON_stringify_image (o1 o2 : object) :
  JSON_stringify o1 = JSON_stringify o2 <-> json_image o1 = json_image o2.
Proof.
  split; intros H.
  - apply (f_equal JSON_members) in H.
    rewrite !JSON_members_stringify in H. congruence.
  - unfold JSON_stringify.
    now rewrite <- (serialize_members_image o1), H, serialize_members_image.
Qed.

Lemma decode_data (o : object) :
  decode (base64 (Buffer_from (JSON_stringify o))) = Some (json_image o).
Proof.
  unfold decode.
  rewrite base64_decode_encode by apply Buffer_from_bytes.
  rewrite Buffer_toString_from. apply JSON_members_stringify.
Qed.

Lemma data_image (o1 o2 : object) :
  base64 (Buffer_from (JSON_stringify o1)) = base64 (Buffer_from (JSON_stringify o2))
  <-> json_image o1 = json_image o2.
Proof.
  rewrite <- JSON_stringify_image. split; intros H.
  - apply Buffer_from_injective.
    apply base64_injective; [apply Buffer_from_bytes .. | exact H].
  - now rewrite H.
Qed.

Lemma decoded_lookup (payload : object) (this : LiqPay) (k : string) :
  lookup k (json_image (payment_of payload this)) =
  match lookup k (payment_of payload this) with
  | Some v => json_value v
  | None => None
  end.
Proof. apply lookup_json_image, payment_of_is_object. Qed.

Lemma decoded_version (payload : object) (this : LiqPay) :
  lookup "version" (json_image (payment_of payload this))
  = Some (Str (apiVersion this)).
Proof. rewrite decoded_lookup, lookup_payment_of. reflexivity. Qed.

(** ** Instances *)

Arguments base64 : simpl never.

Arguments SHA1.digest : simpl never.

Arguments JSON_stringify : simpl never.

Arguments Buffer_from : simpl never.

Lemma perform_query (c : call) (this : LiqPay) :
  is_query c = true -> perform c this = this.
Proof.
  destruct c as [v | payload | payload]; simpl; intros H.
  - discriminate.
  - apply getHtmlForm_frame.
  - apply getObjData_frame.
Qed.

Lemma perform_all_queries (calls : list call) (this : LiqPay) :
  forallb is_query calls = true -> perform_all calls this = this.
Proof.
  unfold perform_all. revert this.
  induction calls as [|c calls IH]; intros this H; simpl in *.
  - reflexivity.
  - apply andb_true_iff in H. destruct H as [Hc Hcalls].
    rewrite (perform_query c this Hc). now apply IH.
Qed.

Lemma perform_setApiVersion (v : string) (this : LiqPay) :
  perform (call_setApiVersion v) this =
  if String.eqb v EmptyString then this
  else {| baseUrl := baseUrl this; imageSrc := imageSrc this; apiVersion := v;
          privateKey := privateKey this; publicKey := publicKey this;
          enableSandbox := enableSandbox this |}.
Proof.
  simpl. rewrite setApiVersion_eq. now destruct (String.eqb v EmptyString).
Qed.

(** What holds of every instance a program can hold. *)
Lemma reachable_invariant (this : LiqPay) :
  reachable this ->
  baseUrl this = "https://www.liqpay.ua/api"
  /\ imageSrc this = "//static.liqpay.ua/buttons/p1ru.radius.png"
  /\ apiVersion this <> EmptyString.
Proof.
  induction 1 as [k p s | c this Hreach IH].
  - simpl. repeat split. discriminate.
  - destruct c as [v | payload | payload].
    + rewrite perform_setApiVersion.
      destruct (String.eqb_spec v EmptyString) as [-> | Hv]; [exact IH |].
      simpl. tauto.
    + now rewrite perform_query.
    + now rewrite perform_query.
Qed.

Lemma version_truthy (this : LiqPay) :
  reachable this -> ToBoolean (Str (apiVersion this)) = true.
Proof.
  intros H. apply reachable_invariant in H. destruct H as [_ [_ H]].
  simpl. apply String.eqb_neq in H. now rewrite H.
Qed.

Lemma getObjData_missing_amount (payload : object) (this : LiqPay) :
  reachable this -> is_object payload ->
  ToBoolean (Get payload "amount") = false ->
  getObjData payload this = (inl (TypeError "Amount must be specified!"), this).
Proof.
  intros Hreach Hobj Hamount.
  rewrite getObjData_eq, verifyPaymentData_eq.
  rewrite Get_payment_version, (version_truthy this Hreach).
  rewrite (Get_payment_business payload this "amount" Hobj) by (simpl; tauto).
  rewrite Hamount. reflexivity.
Qed.

(** ** The pieces of the form *)

Lemma split_words_quoted (a rest : string) :
  contains_char dquote a = false ->
  split_words true (a ++ rest)
  = (a ++ fst (split_words true rest), snd (split_words true rest)).
Proof.
  induction a as [|c a IH]; intros H.
  - cbn [append]. now destruct (split_words true rest).
  - cbn [contains_char] in H. apply orb_false_iff in H. destruct H as [Hc Ha].
    cbn [append split_words].
    rewrite (Ascii.eqb_sym c dquote), Hc, andb_false_r, (IH Ha).
    reflexivity.
Qed.

Lemma until_quote_app (a rest : string) :
  contains_char dquote a = false ->
  until_quote (a ++ rest) = a ++ until_quote rest.
Proof.
  induction a as [|c a IH]; intros H.
  - reflexivity.
  - cbn [contains_char] in H. apply orb_false_iff in H. destruct H as [Hc Ha].
    cbn [append until_quote].
    now rewrite (Ascii.eqb_sym c dquote), Hc, (IH Ha).
Qed.

Lemma form_words (v d g : string) :
  contains_char dquote v = false ->
  contains_char dquote d = false ->
  contains_char dquote g = false ->
  words (nl
       ++ "            <form method=" ++ dq ++ "POST" ++ dq
       ++ " action=" ++ dq ++ "https://www.liqpay.ua/api" ++ "/" ++ v ++ "/checkout" ++ dq
       ++ " accept-charset=" ++ dq ++ "utf-8" ++ dq ++ ">" ++ nl
       ++ "                <input type=" ++ dq ++ "hidden" ++ dq
       ++ " name=" ++ dq ++ "data" ++ dq
       ++ " value=" ++ dq ++ d ++ dq ++ " />" ++ nl
       ++ "                <input type=" ++ dq ++ "hidden" ++ dq
       ++ " name=" ++ dq ++ "signature" ++ dq
       ++ " value=" ++ dq ++ g ++ dq ++ " />" ++ nl
       ++ "                <input type=" ++ dq ++ "image" ++ dq
       ++ " src=" ++ dq ++ "//static.liqpay.ua/buttons/p1ru.radius.png" ++ dq ++ " />" ++ nl
       ++ "            </form>" ++ nl
       ++ "        ")
  = form_pieces v d g.
Proof.
  intros Hv Hd Hg. unfold words, form_pieces, dq, nl, str1. cbn [append].
  repeat (progress (cbn -[append]; rewrite ?split_words_quoted by assumption)).
  reflexivity.
Qed.

Lemma form_action (v d g : string) :
  contains_char dquote v = false ->
  attributes "action"
    (form_pieces v d g)
  = ["https://www.liqpay.ua/api/" ++ v ++ "/checkout"].
Proof.
  intros Hv. unfold form_pieces, dq, str1. cbn.
  rewrite until_quote_app by assumption. reflexivity.
Qed.

Lemma form_hidden (v d g : string) :
  contains_char dquote d = false ->
  contains_char dquote g = false ->
  hidden_fields
    (form_pieces v d g)
  = [("data", d); ("signature", g)].
Proof.
  intros Hd Hg. unfold form_pieces, dq, str1. cbn.
  rewrite !until_quote_app by assumption. cbn.
  now rewrite !append_empty_r.
Qed.

(** * The claims *)

(** ** C1: data and signature *)

(** C1 (amended): for every payload that passes validation, [getObjData]
    returns data = base64(JSON(payment)) and signature =
    base64(SHA1(privateKey + data + privateKey)), and the data decodes to the
    properties of the payment.  The JSON text lists the properties in the key
    order of the payment object: the keys of the copy of the payload, which
    for distinct plain keys are the payload's own keys in the payload's own
    order, then those of language, sandbox (when enabled), version and
    public_key the payload did not carry.  For a payload written with the
    declared fields in the declared order this is the order action, amount,
    currency, description, order_id, language, sandbox, version, public_key. *)
Theorem getObjData_signs (payload : object) (this : LiqPay) :
  valid payload this = true ->
  exists sig,
    preparePayment payload this = (inr (payment_of payload this), this)
    /\ getObjData payload this = (inr sig, this)
    /\ data sig = base64 (Buffer_from (JSON_stringify (payment_of payload this)))
    /\ signature sig
       = base64 (SHA1.digest (Buffer_from (signed_text this (data sig))))
    /\ decode (data sig) = Some (json_image (payment_of payload this))
    /\ keys (payment_of payload this)
       = (keys (Object_assign [] payload)
          ++ added_keys (Object_assign [] payload) this)%list
    /\ (is_object payload -> Forall plain_key (keys payload) ->
        Object_assign [] payload = payload)
    /\ (forall p, payload = literal p ->
        option_map keys (decode (data sig))
        = Some (spec_field_order (enableSandbox this))).
Proof.
  intros Hvalid. rewrite (getObjData_valid payload this Hvalid).
  eexists. split; [apply preparePayment_eq |].
  split; [reflexivity |]. cbn [data signature].
  split; [reflexivity |]. split; [reflexivity |].
  split; [apply decode_data |].
  split; [apply keys_payment_of |].
  split; [apply Object_assign_plain |].
  intros p ->. rewrite decode_data. cbn [option_map].
  now rewrite literal_field_order.
Qed.

(** ** C2: the first missing field *)

(** C2: [getObjData] either returns a complete signed request, or raises the
    error that names the first field, in the order version, amount, currency,
    description, whose value in the prepared payment is missing; nothing is
    aggregated and the instance is left as it was.  On an instance a program
    can hold the version is never the missing field, and a payload without an
    amount gets the error citing the amount, whatever its currency and
    description are. *)
Theorem getObjData_first_missing (payload : object) (this : LiqPay) :
  match first_missing (payment_of payload this) with
  | Some field => getObjData payload this = (inl (ValidationError field), this)
  | None => exists d s,
      getObjData payload this = (inr {| data := d; signature := s |}, this)
  end
  /\ (reachable this -> first_missing (payment_of payload this) <> Some "version")
  /\ (reachable this -> is_object payload ->
      ToBoolean (Get payload "amount") = false ->
      getObjData payload this = (inl (ValidationError "amount"), this)).
Proof.
  assert (Hversion : reachable this ->
            first_missing (payment_of payload this) <> Some "version").
  { intros Hreach. unfold first_missing, required_fields. simpl.
    rewrite Get_payment_version, (version_truthy this Hreach). simpl.
    destruct (negb (ToBoolean (Get (payment_of payload this) "amount")));
      [discriminate |].
    destruct (negb (ToBoolean (Get (payment_of payload this) "currency")));
      [discriminate |].
    destruct (negb (ToBoolean (Get (payment_of payload this) "description")));
      discriminate. }
  split; [| split; [exact Hversion |]].
  - rewrite getObjData_eq, verifyPaymentData_first_missing.
    destruct (first_missing (payment_of payload this)); [reflexivity |].
    eexists. eexists. reflexivity.
  - apply getObjData_missing_amount.
Qed.

(** ** C3: determinism *)

(** C3: two instances with the same private key, public key, sandbox flag and
    version give, for the same payload, the same outcome: the same data and
    the same signature, or the same error; and a call repeated on the
    instance the first call leaves gives that outcome again.  Nothing but the
    payload and these four fields enters the result. *)
Theorem getObjData_deterministic (payload : object) (this1 this2 : LiqPay) :
  privateKey this1 = privateKey this2 ->
  publicKey this1 = publicKey this2 ->
  enableSandbox this1 = enableSandbox this2 ->
  apiVersion this1 = apiVersion this2 ->
  fst (getObjData payload this1) = fst (getObjData payload this2)
  /\ fst (getObjData payload (snd (getObjData payload this1)))
     = fst (getObjData payload this1).
Proof.
  intros Hk Hp Hs Hv. split.
  - rewrite !getObjData_eq, !verifyPaymentData_eq.
    rewrite (payment_of_configuration payload this1 this2 Hp Hs Hv).
    unfold signed_text. rewrite Hk.
    destruct (negb (ToBoolean (Get (payment_of payload this2) "version")));
      [reflexivity |].
    destruct (negb (ToBoolean (Get (payment_of payload this2) "amount")));
      [reflexivity |].
    destruct (negb (ToBoolean (Get (payment_of payload this2) "currency")));
      [reflexivity |].
    destruct (negb (ToBoolean (Get (payment_of payload this2) "description")));
      reflexivity.
  - now rewrite getObjData_frame.
Qed.

(** ** C4: the sandbox marker *)

(** C4 (amended): for every valid payload, with the sandbox flag on the
    decoded data holds the field sandbox with the value 1; with the flag off
    the builder adds no such field: the decoded data holds what the payload
    itself carries under that key, and nothing when the payload has no
    sandbox property, as no payload made of the declared fields has. *)
Theorem sandbox_marker (payload : object) (this : LiqPay) :
  valid payload this = true ->
  exists sig members,
    getObjData payload this = (inr sig, this)
    /\ decode (data sig) = Some members
    /\ (enableSandbox this = true ->
        lookup "sandbox" members = Some (Str "1"))
    /\ (enableSandbox this = false -> is_object payload ->
        lookup "sandbox" members =
        match lookup "sandbox" payload with
        | Some v => json_value v
        | None => None
        end)
    /\ (enableSandbox this = false -> has_own "sandbox" payload = false ->
        lookup "sandbox" members = None).
Proof.
  intros Hvalid. rewrite (getObjData_valid payload this Hvalid).
  eexists. eexists. split; [reflexivity |].
  cbn [data]. split; [apply decode_data |].
  rewrite decoded_lookup, lookup_payment_of. cbv zeta.
  cbn [String.eqb Ascii.eqb Bool.eqb andb]. rewrite andb_false_r, andb_true_r.
  repeat split.
  - intros ->. reflexivity.
  - intros -> Hobj. now rewrite lookup_Object_assign.
  - intros -> Hown. apply has_own_lookup in Hown.
    unfold Object_assign. rewrite lookup_fold_Set_absent by assumption.
    reflexivity.
Qed.

(** ** C5: the version setter *)

(** C5: [setApiVersion] of the empty string raises its error and leaves the
    instance, hence the version, as it was.  [setApiVersion] of a non-empty
    version, such as 3, succeeds, and from then on, across any calls of
    [getObjData] and [getHtmlForm], every [getObjData] on a valid payload
    returns data whose decoded form holds that version. *)
Theorem setApiVersion_contract :
  (forall this,
     setApiVersion EmptyString this
     = (inl (TypeError "API version not specified!"), this))
  /\ (forall v this calls payload,
        v <> EmptyString ->
        forallb is_query calls = true ->
        exists configured,
          setApiVersion v this = (inr tt, configured)
          /\ apiVersion (perform_all calls configured) = v
          /\ (valid payload (perform_all calls configured) = true ->
              exists sig members,
                getObjData payload (perform_all calls configured)
                = (inr sig, perform_all calls configured)
                /\ decode (data sig) = Some members
                /\ lookup "version" members = Some (Str v))).
Proof.
  split.
  - intros this. now rewrite setApiVersion_eq.
  - intros v this calls payload Hv Hcalls.
    rewrite setApiVersion_eq. apply String.eqb_neq in Hv. rewrite Hv.
    eexists. split; [reflexivity |].
    rewrite (perform_all_queries calls _ Hcalls).
    split; [reflexivity |].
    intros Hvalid. rewrite (getObjData_valid _ _ Hvalid).
    eexists. eexists. split; [reflexivity |]. cbn [data].
    split; [apply decode_data |]. apply decoded_version.
Qed.

(** ** C6: the form *)

(** C6 (amended): on an instance a program can hold whose version has no
    double quote in it, the form [getHtmlForm] returns for a valid payload
    has exactly one action attribute, with the value base URL, slash,
    version, [/checkout], and exactly two hidden inputs, data and signature,
    with the values [getObjData] returns for that payload. *)
Theorem getHtmlForm_markup (payload : object) (this : LiqPay) :
  reachable this ->
  contains_char dquote (apiVersion this) = false ->
  valid payload this = true ->
  form_claim payload this.
Proof.
  intros Hreach Hversion Hvalid.
  destruct (reachable_invariant this Hreach) as [Hbase [Himage _]].
  unfold form_claim, getHtmlForm. unfold bind at 1.
  rewrite (getObjData_valid payload this Hvalid).
  unfold bind, read, ret. cbn [data signature].
  eexists. eexists. split; [reflexivity |]. split; [reflexivity |].
  rewrite Hbase, Himage.
  set (d := base64 (Buffer_from (JSON_stringify (payment_of payload this)))).
  set (g := base64 (SHA1.digest (Buffer_from (signed_text this d)))).
  assert (Hd : contains_char dquote d = false) by apply base64_no_quote.
  assert (Hg : contains_char dquote g = false) by apply base64_no_quote.
  clearbody d g. set (v := apiVersion this) in *. clearbody v.
  change ("https://www.liqpay.ua/api" ++ "/" ++ v ++ "/checkout")
    with ("https://www.liqpay.ua/api/" ++ v ++ "/checkout").
  rewrite (form_words v d g Hversion Hd Hg).
  split; [now apply form_action | now apply form_hidden].
Qed.

(** ** C7: normalisation *)

(** The language of the payment goes by the truth value of the caller's: a
    falsy one gives way to Ukrainian, a truthy one is kept; the version and
    the public key of the payment are those of the instance, whatever the
    payload holds. *)
Lemma preparePayment_fields (payload : object) (this : LiqPay) :
  (is_object payload ->
   ToBoolean (Get payload "language") = false ->
   Get (payment_of payload this) "language" = Str Language_UA)
  /\ (is_object payload ->
      ToBoolean (Get payload "language") = true ->
      Get (payment_of payload this) "language" = Get payload "language")
  /\ preparePayment payload this = (inr (payment_of payload this), this)
  /\ Get (payment_of payload this) "version" = Str (apiVersion this)
  /\ Get (payment_of payload this) "public_key" = Str (publicKey this).
Proof.
  repeat split.
  - intros Hobj H. now rewrite Get_payment_language, H.
  - intros Hobj H. now rewrite Get_payment_language, H.
  - apply Get_payment_version.
  - apply Get_payment_public_key.
Qed.

(** C7: normalisation, on the payloads of the interface.  The field
    [language?: Language] is left out, holds undefined, or holds a member of
    the enumeration, which is a non-empty string and so a truthy value.  For
    every such payload [preparePayment] returns a payment whose language is
    Ukrainian when the caller's is unset and the caller's when it is
    supplied, and whose version and public key are those of the instance,
    whatever the payload holds under these keys; the instance is left as it
    was. *)
Theorem preparePayment_normalisation (payload : object) (this : LiqPay) :
  is_object payload ->
  Get payload "language" = undefined
  \/ ToBoolean (Get payload "language") = true ->
  normalisation_claim payload this
  /\ preparePayment payload this = (inr (payment_of payload this), this).
Proof.
  intros Hobj Hlanguage.
  destruct (preparePayment_fields payload this)
    as [Hfalsy [Htruthy [Hrun [Hversion Hkey]]]].
  split; [| exact Hrun].
  unfold normalisation_claim. repeat split.
  - intros Hunset. apply (Hfalsy Hobj). now rewrite Hunset.
  - intros Hset. destruct Hlanguage as [Hunset | Htrue];
      [contradiction | exact (Htruthy Hobj Htrue)].
  - exact Hversion.
  - exact Hkey.
Qed.

(** ** C8: the configuration across calls *)

(** A run of calls keeps the keys and the flag the instance started with. *)
Lemma perform_all_keys (calls : list call) (this : LiqPay) :
  privateKey (perform_all calls this) = privateKey this
  /\ publicKey (perform_all calls this) = publicKey this
  /\ enableSandbox (perform_all calls this) = enableSandbox this.
Proof.
  unfold perform_all. revert this.
  induction calls as [|c calls IH]; intros this; cbn [fold_left].
  - repeat split.
  - destruct (IH (perform c this)) as [Hk [Hp Hs]]. rewrite Hk, Hp, Hs.
    destruct c as [v | payload | payload].
    + rewrite perform_setApiVersion.
      destruct (String.eqb v EmptyString); repeat split.
    + rewrite perform_query by reflexivity. repeat split.
    + rewrite perform_query by reflexivity. repeat split.
Qed.

(** C8 (amended): the constructor stores the private key, the public key and
    the sandbox flag it is given, the flag being off when it is left out,
    and starts the version at 3, with the base URL and the image source of
    the gateway; after any run of calls the instance still holds the keys
    and the flag it was constructed with.  No operation changes the private
    key, the public key, the sandbox flag, the base URL or the image source;
    [getObjData] and [getHtmlForm] leave the whole instance as it is;
    [setApiVersion v] changes the version alone, to [v], and only when [v]
    is not empty. *)
Theorem configuration_frame (k p : string) (s : bool) (calls : list call)
    (c : call) (this : LiqPay) :
  (privateKey (constructor k p s) = k
   /\ publicKey (constructor k p s) = p
   /\ enableSandbox (constructor k p s) = s
   /\ apiVersion (constructor k p s) = "3"
   /\ baseUrl (constructor k p s) = "https://www.liqpay.ua/api"
   /\ imageSrc (constructor k p s) = "//static.liqpay.ua/buttons/p1ru.radius.png"
   /\ constructor_default k p = constructor k p false)
  /\ (privateKey (perform_all calls (constructor k p s)) = k
      /\ publicKey (perform_all calls (constructor k p s)) = p
      /\ enableSandbox (perform_all calls (constructor k p s)) = s)
  /\ privateKey (perform c this) = privateKey this
  /\ publicKey (perform c this) = publicKey this
  /\ enableSandbox (perform c this) = enableSandbox this
  /\ baseUrl (perform c this) = baseUrl this
  /\ imageSrc (perform c this) = imageSrc this
  /\ (is_query c = true -> perform c this = this)
  /\ (forall v, c = call_setApiVersion v ->
      apiVersion (perform c this)
      = if String.eqb v EmptyString then apiVersion this else v).
Proof.
  split; [repeat split |].
  split; [exact (perform_all_keys calls (constructor k p s)) |].
  destruct c as [v | payload | payload].
  - rewrite perform_setApiVersion.
    destruct (String.eqb v EmptyString) eqn:E; simpl;
      repeat split; try discriminate;
      intros v' [= <-]; rewrite E; reflexivity.
  - rewrite perform_query by reflexivity.
    repeat split; try reflexivity. intros v [=].
  - rewrite perform_query by reflexivity.
    repeat split; try reflexivity. intros v [=].
Qed.

(** ** C9: different payloads, different signatures *)

Lemma signed_text_injective (this : LiqPay) (d1 d2 : string) :
  signed_text this d1 = signed_text this d2 -> d1 = d2.
Proof.
  unfold signed_text. intros H.
  apply append_inv_head in H. now apply append_inv_tail in H.
Qed.

(** C9 (amended): two payloads that pass validation on one instance get the
    same data exactly when their payments read the same in JSON, and equal
    data get equal signatures; so a change that normalisation absorbs, such
    as leaving the language unset instead of Ukrainian, changes nothing.
    The signatures are equal exactly when the SHA-1 digests of the two
    signed texts are, and the signed texts differ when the data do: with
    different data the signatures can agree only by a collision of SHA-1,
    which nothing in the program excludes.  A change of what JSON shows of
    one of action, amount, currency, description, order_id changes the data.
    The digest is SHA-1 itself: signing [abc] with an empty key gives the
    digest of the standard's first example, and signing with a key puts it
    on both sides of the data. *)
Theorem signature_separates (p1 p2 : object) (this : LiqPay) (s1 s2 : ISignature) :
  getObjData p1 this = (inr s1, this) ->
  getObjData p2 this = (inr s2, this) ->
  (data s1 = data s2
   <-> json_image (payment_of p1 this) = json_image (payment_of p2 this))
  /\ (data s1 = data s2 -> signature s1 = signature s2)
  /\ (signature s1 = signature s2
      <-> SHA1.digest (Buffer_from (signed_text this (data s1)))
          = SHA1.digest (Buffer_from (signed_text this (data s2))))
  /\ (data s1 <> data s2 ->
      signed_text this (data s1) <> signed_text this (data s2))
  /\ (forall k, is_object p1 -> is_object p2 -> In k business_fields ->
      json_field k p1 <> json_field k p2 -> data s1 <> data s2)
  /\ (forall p s,
      generateSignature "abc" (constructor EmptyString p s)
      = (inr "qZk+NkcGgWq6PiVxeFDCbJzQ2J0=", constructor EmptyString p s))
  /\ (forall p s,
      generateSignature "data" (constructor "private" p s)
      = (inr "+oP3tDcYk+HijfJ9h4iW1n6Qr60=", constructor "private" p s)).
Proof.
  intros H1 H2.
  rewrite getObjData_eq in H1, H2.
  destruct (verifyPaymentData (payment_of p1 this) this) as [[e1 | u1] t1];
    [discriminate |].
  destruct (verifyPaymentData (payment_of p2 this) this) as [[e2 | u2] t2];
    [discriminate |].
  cbv zeta in H1, H2. injection H1 as <-. injection H2 as <-.
  cbn [data signature].
  assert (Himage := data_image (payment_of p1 this) (payment_of p2 this)).
  split; [exact Himage |].
  split; [intros ->; reflexivity |].
  split.
  { unfold signed_text. split.
    - apply base64_injective; apply digest_bytes.
    - intros ->. reflexivity. }
  split.
  { intros Hdata Htext. apply Hdata. now apply signed_text_injective in Htext. }
  split.
  { intros k Hobj1 Hobj2 Hk Hfield Hdata.
    apply Himage in Hdata. apply Hfield. unfold json_field.
    rewrite <- (lookup_payment_business p1 this k Hobj1 Hk).
    rewrite <- (lookup_payment_business p2 this k Hobj2 Hk).
    rewrite <- !decoded_lookup. now rewrite Hdata. }
  split; intros p s; vm_compute; reflexivity.
Qed.

(** Every list of bytes is in the enumeration of its length. *)
Lemma In_byte_lists (b : bytes) :
  Forall is_byte b -> In b (byte_lists (List.length b)).
Proof.
  induction 1 as [|x b Hx Hb IH]; cbn [List.length byte_lists].
  - now left.
  - apply in_flat_map. exists b. split; [exact IH |].
    apply in_map_iff. exists (N.to_nat x). split.
    + now rewrite N2Nat.id.
    + apply in_seq. unfold is_byte in Hx. lia.
Qed.

(** ** C10: falsy values *)

(** C10: validation takes a falsy value for a missing one.  On an instance a
    program can hold, a payload whose amount is falsy, as the number 0 is,
    gets the error citing the amount; one whose amount and currency are
    truthy and whose description is falsy, as the empty string is, gets the
    error citing the description; the fields are present in both payloads. *)
Theorem getObjData_falsy_is_missing (payload : object) (this : LiqPay) :
  reachable this -> is_object payload ->
  (forall v, lookup "amount" payload = Some v -> ToBoolean v = false ->
     getObjData payload this
     = (inl (TypeError "Amount must be specified!"), this))
  /\ (lookup "amount" payload = Some (Number (Finite zero)) ->
      getObjData payload this
      = (inl (TypeError "Amount must be specified!"), this))
  /\ (forall v, ToBoolean (Get payload "amount") = true ->
      ToBoolean (Get payload "currency") = true ->
      lookup "description" payload = Some v -> ToBoolean v = false ->
      getObjData payload this
      = (inl (TypeError "Description must be specified!"), this))
  /\ (ToBoolean (Get payload "amount") = true ->
      ToBoolean (Get payload "currency") = true ->
      lookup "description" payload = Some (Str EmptyString) ->
      getObjData payload this
      = (inl (TypeError "Description must be specified!"), this)).
Proof.
  intros Hreach Hobj.
  assert (Hamount : forall v, lookup "amount" payload = Some v ->
            ToBoolean v = false ->
            getObjData payload this
            = (inl (TypeError "Amount must be specified!"), this)).
  { intros v Hv Hfalsy.
    apply (getObjData_missing_amount payload this Hreach Hobj).
    unfold Get. now rewrite Hv. }
  assert (Hdescription : forall v, ToBoolean (Get payload "amount") = true ->
            ToBoolean (Get payload "currency") = true ->
            lookup "description" payload = Some v -> ToBoolean v = false ->
            getObjData payload this
            = (inl (TypeError "Description must be specified!"), this)).
  { intros v Ha Hc Hv Hfalsy.
    rewrite getObjData_eq, verifyPaymentData_eq.
    rewrite Get_payment_version, (version_truthy this Hreach).
    rewrite !(Get_payment_business payload this _ Hobj) by (simpl; tauto).
    rewrite Ha, Hc. unfold Get at 1. rewrite Hv, Hfalsy. reflexivity. }
  repeat split.
  - exact Hamount.
  - intros H. apply (Hamount (Number (Finite zero)) H).
    now apply nonzero_zero.
  - exact Hdescription.
  - intros Ha Hc H. now apply (Hdescription (Str EmptyString)).
Qed.

(** * Further properties *)

(** ** Failing and succeeding together *)

(** X1: [getHtmlForm] raises exactly when [getObjData] raises on the same
    payload, with the same exception and the instance left as it was, and
    returns a form exactly when [getObjData] returns a signed request. *)
Theorem getHtmlForm_raises_with_getObjData (payload : object) (this : LiqPay) :
  (forall e,
     getObjData payload this = (inl e, this)
     <-> getHtmlForm payload this = (inl e, this))
  /\ ((exists sig, getObjData payload this = (inr sig, this))
      <-> (exists html, getHtmlForm payload this = (inr html, this))).
Proof.
  pose proof (getObjData_frame payload this) as Hframe.
  unfold getHtmlForm, bind, read, ret.
  destruct (getObjData payload this) as [[e | sig] s]; cbn [snd] in Hframe;
    subst s.
  - split.
    + intros e'. split; intros [= ->]; reflexivity.
    + split; intros [x [=]].
  - split.
    + intros e'. split; intros [=].
    + split; intros _; [eexists; reflexivity | now exists sig].
Qed.

(** ** What generateData keeps *)

(** X2: the data [generateData] returns for an object decodes to the
    properties of the object that JSON keeps, in their order; two objects
    get the same data exactly when they agree on those. *)
Theorem generateData_round_trip (o1 o2 : object) (this : LiqPay) :
  exists d1 d2,
    generateData o1 this = (inr d1, this)
    /\ generateData o2 this = (inr d2, this)
    /\ decode d1 = Some (json_image o1)
    /\ (d1 = d2 <-> json_image o1 = json_image o2).
Proof.
  unfold generateData, ret. eexists. eexists.
  split; [reflexivity |]. split; [reflexivity |].
  split; [apply decode_data | apply data_image].
Qed.

(** ** The shape of data and signature *)

Lemma base64_group (x y z : N) (rest : bytes) :
  base64 (x :: y :: z :: rest)
  = String (base64_char (x / 4))
      (String (base64_char ((x mod 4) * 16 + y / 16))
         (String (base64_char ((y mod 16) * 4 + z / 64))
            (String (base64_char (z mod 64)) (base64 rest)))).
Proof. reflexivity. Qed.

Lemma length_base64 (b : bytes) :
  String.length (base64 b) = (4 * ((List.length b + 2) / 3))%nat.
Proof.
  induction b as [| x | x y | x y z rest IH] using bytes_ind3;
    try reflexivity.
  rewrite base64_group. cbn [String.length List.length]. rewrite IH.
  replace (S (S (S (List.length rest))) + 2)%nat
    with (1 * 3 + (List.length rest + 2))%nat by lia.
  rewrite Nat.div_add_l by discriminate. lia.
Qed.

Lemma base64_char_in_alphabet (n : N) : is_base64_char (base64_char n) = true.
Proof.
  destruct (N.ltb_spec n 64) as [Hlt | Hge].
  - unfold is_base64_char. now rewrite base64_index_char.
  - unfold base64_char. rewrite get_beyond; [reflexivity |].
    change (String.length base64_alphabet) with 64%nat. lia.
Qed.

Lemma base64_in_alphabet (b : bytes) : all_chars is_base64_char (base64 b) = true.
Proof.
  induction b as [| x | x y | x y z rest IH] using bytes_ind3.
  - reflexivity.
  - change (base64 [x])
      with (String (base64_char (x / 4))
              (String (base64_char ((x mod 4) * 16)) "==")).
    cbn [all_chars]. now rewrite !base64_char_in_alphabet.
  - change (base64 [x; y])
      with (String (base64_char (x / 4))
              (String (base64_char ((x mod 4) * 16 + y / 16))
                 (String (base64_char ((y mod 16) * 4)) "="))).
    cbn [all_chars]. now rewrite !base64_char_in_alphabet.
  - rewrite base64_group. cbn [all_chars].
    now rewrite !base64_char_in_alphabet, IH.
Qed.

(** X3: the signature [generateSignature] returns is always 28 characters
    long and is the base64 form of the 20 bytes of the SHA-1 digest of
    private key, data, private key: decoding it gives that digest back. *)
Theorem generateSignature_shape (d : string) (this : LiqPay) :
  exists s,
    generateSignature d this = (inr s, this)
    /\ String.length s = 28%nat
    /\ base64_decode s
       = Some (SHA1.digest (Buffer_from (privateKey this ++ d ++ privateKey this)))
    /\ List.length
         (SHA1.digest (Buffer_from (privateKey this ++ d ++ privateKey this)))
       = 20%nat.
Proof.
  unfold generateSignature, bind, read, ret. eexists.
  split; [reflexivity |].
  split; [now rewrite length_base64, length_digest |].
  split; [apply base64_decode_encode, digest_bytes | apply length_digest].
Qed.

(** X4: whatever [getObjData] returns is plain base64: data and signature
    hold only letters, digits, plus, slash and the padding sign, the length
    of the data is a multiple of four, and the bytes the data decodes to are
    the JSON text of the prepared payment. *)
Theorem getObjData_returns_base64 (payload : object) (this : LiqPay)
        (sig : ISignature) :
  getObjData payload this = (inr sig, this) ->
  all_chars is_base64_char (data sig) = true
  /\ all_chars is_base64_char (signature sig) = true
  /\ (String.length (data sig) mod 4 = 0)%nat
  /\ String.length (signature sig) = 28%nat
  /\ option_map Buffer_toString (base64_decode (data sig))
     = Some (JSON_stringify (payment_of payload this)).
Proof.
  intros Hsig. rewrite getObjData_eq in Hsig.
  destruct (verifyPaymentData (payment_of payload this) this) as [[e | u] s];
    [discriminate |].
  cbv zeta in Hsig. injection Hsig as <-. cbn [data signature].
  split; [apply base64_in_alphabet |].
  split; [apply base64_in_alphabet |].
  split.
  - rewrite length_base64, Nat.mul_comm. apply Nat.Div0.mod_mul.
  - split; [now rewrite length_base64, length_digest |].
    rewrite base64_decode_encode by apply Buffer_from_bytes.
    cbn [option_map]. now rewrite Buffer_toString_from.
Qed.

(** ** What validation reads *)

(** X5: on an instance a program can hold, a payload passes validation
    exactly when its amount, its currency and its description are truthy;
    the action, the order identifier, the language and any other property
    play no part. *)
Theorem valid_by_three_fields (payload : object) (this : LiqPay) :
  reachable this -> is_object payload ->
  valid payload this
  = ToBoolean (Get payload "amount") && ToBoolean (Get payload "currency")
    && ToBoolean (Get payload "description").
Proof.
  intros Hreach Hobj. rewrite valid_eq, verifyPaymentData_eq.
  rewrite Get_payment_version, (version_truthy this Hreach).
  rewrite !(Get_payment_business payload this _ Hobj) by (simpl; tauto).
  destruct (ToBoolean (Get payload "amount")); [| reflexivity].
  destruct (ToBoolean (Get payload "currency")); [| reflexivity].
  destruct (ToBoolean (Get payload "description")); reflexivity.
Qed.

(** ** What the builder passes on *)

Lemma not_builder_owned (k : string) :
  builder_owned k = false ->
  String.eqb "public_key" k = false /\ String.eqb "version" k = false
  /\ String.eqb "sandbox" k = false /\ String.eqb "language" k = false.
Proof.
  unfold builder_owned. intros H.
  apply orb_false_iff in H. destruct H as [H Hp].
  apply orb_false_iff in H. destruct H as [H Hv].
  apply orb_false_iff in H. destruct H as [Hl Hs].
  rewrite (String.eqb_sym "public_key"), (String.eqb_sym "version"),
    (String.eqb_sym "sandbox"), (String.eqb_sym "language").
  tauto.
Qed.

(** X6: every property of the payload other than language, sandbox, version
    and public_key reaches the payment with its value unchanged, whether the
    interface declares it or not, and the decoded data shows it as JSON
    keeps it. *)
Theorem preparePayment_passes_on (payload : object) (this : LiqPay) (k : string) :
  is_object payload ->
  builder_owned k = false ->
  String.eqb k "__proto__" = false ->
  lookup k (payment_of payload this) = lookup k payload
  /\ (valid payload this = true ->
      exists sig members,
        getObjData payload this = (inr sig, this)
        /\ decode (data sig) = Some members
        /\ lookup k members = json_field k payload).
Proof.
  intros Hobj Hk Hproto.
  destruct (not_builder_owned k Hk) as [Hp [Hv [Hs Hl]]].
  assert (Hlookup : lookup k (payment_of payload this) = lookup k payload).
  { rewrite lookup_payment_of. cbv zeta.
    rewrite Hp, Hv, Hs, Hl, !andb_false_r.
    now apply lookup_Object_assign. }
  split; [exact Hlookup |].
  intros Hvalid. rewrite (getObjData_valid payload this Hvalid).
  eexists. eexists. split; [reflexivity |]. cbn [data].
  split; [apply decode_data |].
  unfold json_field. now rewrite decoded_lookup, Hlookup.
Qed.

(** X7: the data of every signed request decodes to an object that holds
    the public key and the version of the instance as strings, and a
    language, which is the default one when the payload has none. *)
Theorem decoded_identity (payload : object) (this : LiqPay) :
  valid payload this = true ->
  exists sig members,
    getObjData payload this = (inr sig, this)
    /\ decode (data sig) = Some members
    /\ lookup "public_key" members = Some (Str (publicKey this))
    /\ lookup "version" members = Some (Str (apiVersion this))
    /\ lookup "language" members <> None
    /\ (has_own "language" payload = false ->
        lookup "language" members = Some (Str Language_UA)).
Proof.
  intros Hvalid. rewrite (getObjData_valid payload this Hvalid).
  eexists. eexists. split; [reflexivity |]. cbn [data].
  split; [apply decode_data |].
  rewrite !decoded_lookup, !lookup_payment_of. cbv zeta.
  cbn [String.eqb Ascii.eqb Bool.eqb andb]. rewrite !andb_false_r, !andb_true_r.
  split; [reflexivity |]. split; [reflexivity |].
  split.
  - unfold Get.
    destruct (lookup "language" (Object_assign [] payload)) as [v |];
      [| discriminate].
    destruct (ToBoolean v) eqn:Hv; [| discriminate].
    cbn [negb]. destruct v as [| | b | [z | | |] | l]; discriminate.
  - intros Hown. apply has_own_lookup in Hown.
    unfold Get, Object_assign.
    rewrite lookup_fold_Set_absent by assumption. reflexivity.
Qed.

(** ** Runs of calls *)

(** X8: over any run of calls the private key, the public key, the sandbox
    flag, the base URL and the image source stay what they were, and the
    version is the last non-empty one a [setApiVersion] of the run was
    given, or the one the run started with. *)
Theorem calls_keep_configuration (calls : list call) (this : LiqPay) :
  privateKey (perform_all calls this) = privateKey this
  /\ publicKey (perform_all calls this) = publicKey this
  /\ enableSandbox (perform_all calls this) = enableSandbox this
  /\ baseUrl (perform_all calls this) = baseUrl this
  /\ imageSrc (perform_all calls this) = imageSrc this
  /\ apiVersion (perform_all calls this) = last_version calls (apiVersion this).
Proof.
  unfold perform_all, last_version. revert this.
  induction calls as [|c calls IH]; intros this; cbn [fold_left].
  - repeat split.
  - destruct (IH (perform c this)) as [Hk [Hp [Hs [Hb [Hi Hv]]]]].
    rewrite Hk, Hp, Hs, Hb, Hi, Hv.
    destruct c as [v | payload | payload].
    + rewrite perform_setApiVersion.
      destruct (String.eqb v EmptyString); repeat split.
    + rewrite perform_query by reflexivity. repeat split.
    + rewrite perform_query by reflexivity. repeat split.
Qed.

(** ** Where the private key goes *)

(** X10: the private key enters the signature alone: two instances with the
    same public key, sandbox flag and version accept the same payloads and
    return the same data for them, whatever their private keys are. *)
Theorem data_ignores_private_key (payload : object) (this1 this2 : LiqPay) :
  publicKey this1 = publicKey this2 ->
  enableSandbox this1 = enableSandbox this2 ->
  apiVersion this1 = apiVersion this2 ->
  valid payload this1 = valid payload this2
  /\ (forall s1 s2,
        getObjData payload this1 = (inr s1, this1) ->
        getObjData payload this2 = (inr s2, this2) ->
        data s1 = data s2).
Proof.
  intros Hp Hs Hv.
  pose proof (payment_of_configuration payload this1 this2 Hp Hs Hv) as E.
  split.
  - rewrite !valid_eq, !verifyPaymentData_eq, E.
    destruct (negb (ToBoolean (Get (payment_of payload this2) "version")));
      [reflexivity |].
    destruct (negb (ToBoolean (Get (payment_of payload this2) "amount")));
      [reflexivity |].
    destruct (negb (ToBoolean (Get (payment_of payload this2) "currency")));
      [reflexivity |].
    destruct (negb (ToBoolean (Get (payment_of payload this2) "description")));
      reflexivity.
  - intros s1 s2 H1 H2. rewrite getObjData_eq in H1, H2.
    destruct (verifyPaymentData (payment_of payload this1) this1)
      as [[e1 | u1] t1]; [discriminate |].
    destruct (verifyPaymentData (payment_of payload this2) this2)
      as [[e2 | u2] t2]; [discriminate |].
    cbv zeta in H1, H2. injection H1 as <-. injection H2 as <-.
    cbn [data]. now rewrite E.
Qed.

(** ** The rest of the form *)

Lemma getHtmlForm_pieces (payload : object) (this : LiqPay) :
  reachable this ->
  contains_char dquote (apiVersion this) = false ->
  valid payload this = true ->
  exists html d g,
    getHtmlForm payload this = (inr html, this)
    /\ words html = form_pieces (apiVersion this) d g.
Proof.
  intros Hreach Hversion Hvalid.
  destruct (reachable_invariant this Hreach) as [Hbase [Himage _]].
  unfold getHtmlForm. unfold bind at 1.
  rewrite (getObjData_valid payload this Hvalid).
  unfold bind, read, ret. cbn [data signature].
  eexists. eexists. eexists. split; [reflexivity |].
  rewrite Hbase, Himage.
  change ("https://www.liqpay.ua/api" ++ "/" ++ apiVersion this ++ "/checkout")
    with ("https://www.liqpay.ua/api/" ++ apiVersion this ++ "/checkout").
  apply form_words; [assumption | apply base64_no_quote ..].
Qed.

(** X11: on an instance a program can hold whose version has no double
    quote in it, the form for a valid payload is sent with the method POST
    and the character set utf-8, and holds three inputs: the two hidden
    ones, named data and signature, and one image whose source is the
    button of the gateway. *)
Theorem getHtmlForm_attributes (payload : object) (this : LiqPay) :
  reachable this ->
  contains_char dquote (apiVersion this) = false ->
  valid payload this = true ->
  exists html,
    getHtmlForm payload this = (inr html, this)
    /\ attributes "method" (words html) = ["POST"]
    /\ attributes "accept-charset" (words html) = ["utf-8"]
    /\ attributes "type" (words html) = ["hidden"; "hidden"; "image"]
    /\ attributes "name" (words html) = ["data"; "signature"]
    /\ attributes "src" (words html)
       = ["//static.liqpay.ua/buttons/p1ru.radius.png"].
Proof.
  intros Hreach Hversion Hvalid.
  destruct (getHtmlForm_pieces payload this Hreach Hversion Hvalid)
    as [html [d [g [Hhtml Hwords]]]].
  exists html. split; [exact Hhtml |]. rewrite Hwords.
  unfold form_pieces, dq, str1. repeat split; reflexivity.
Qed.

(** ** Preparing twice *)

Lemma digits_value_acc (s : string) (acc : N) :
  digits_value acc s =
  match digits_value 0 s with
  | Some v => Some (acc * 10 ^ N.of_nat (String.length s) + v)%N
  | None => None
  end.
Proof.
  revert acc. induction s as [|c s IH]; intros acc.
  - cbn [digits_value String.length]. f_equal. cbn. lia.
  - cbn [digits_value String.length]. destruct (is_digit c); [| reflexivity].
    rewrite (IH (10 * acc + (N_of_ascii c - 48))%N).
    rewrite (IH (10 * 0 + (N_of_ascii c - 48))%N).
    destruct (digits_value 0 s) as [v |]; [| reflexivity].
    f_equal. rewrite Nat2N.inj_succ, N.pow_succ_r'. lia.
Qed.

Lemma digits_value_cons (c : ascii) (s : string) (v : N) :
  digits_value 0 (String c s) = Some v ->
  is_digit c = true
  /\ exists w, digits_value 0 s = Some w
               /\ v = ((N_of_ascii c - 48) * 10 ^ N.of_nat (String.length s) + w)%N.
Proof.
  cbn [digits_value]. destruct (is_digit c); [| discriminate].
  rewrite digits_value_acc.
  destruct (digits_value 0 s) as [w |]; [| discriminate].
  intros [= <-]. split; [reflexivity |]. exists w. split; [reflexivity |]. lia.
Qed.

Lemma digit_bounds (c : ascii) :
  is_digit c = true -> (48 <= N_of_ascii c <= 57)%N.
Proof.
  unfold is_digit. intros H. apply andb_true_iff in H. destruct H as [H1 H2].
  apply N.leb_le in H1. apply N.leb_le in H2. lia.
Qed.

Lemma digits_value_below (s : string) (v : N) :
  digits_value 0 s = Some v -> (v < 10 ^ N.of_nat (String.length s))%N.
Proof.
  revert v. induction s as [|c s IH]; intros v H.
  - injection H as <-. cbn. lia.
  - apply digits_value_cons in H. destruct H as [Hc [w [Hw ->]]].
    specialize (IH w Hw). apply digit_bounds in Hc.
    cbn [String.length]. rewrite Nat2N.inj_succ, N.pow_succ_r'. nia.
Qed.

Lemma N_of_ascii_injective (c1 c2 : ascii) :
  N_of_ascii c1 = N_of_ascii c2 -> c1 = c2.
Proof.
  intros H. apply (f_equal ascii_of_N) in H.
  now rewrite !ascii_N_embedding in H.
Qed.

Lemma digits_value_same_length (s1 s2 : string) (v : N) :
  String.length s1 = String.length s2 ->
  digits_value 0 s1 = Some v -> digits_value 0 s2 = Some v -> s1 = s2.
Proof.
  revert s2 v. induction s1 as [|c1 s1 IH]; intros [|c2 s2] v Hlen H1 H2;
    try discriminate; [reflexivity |].
  cbn [String.length] in Hlen. injection Hlen as Hlen.
  apply digits_value_cons in H1. destruct H1 as [Hc1 [w1 [Hw1 E1]]].
  apply digits_value_cons in H2. destruct H2 as [Hc2 [w2 [Hw2 E2]]].
  pose proof (digits_value_below s1 w1 Hw1) as B1.
  pose proof (digits_value_below s2 w2 Hw2) as B2.
  rewrite Hlen in E1, B1. apply digit_bounds in Hc1. apply digit_bounds in Hc2.
  assert (Hd : (N_of_ascii c1 - 48 = N_of_ascii c2 - 48)%N) by nia.
  assert (Hw : w1 = w2) by nia.
  subst w2. f_equal.
  - apply N_of_ascii_injective. lia.
  - now apply (IH s2 w1).
Qed.

Lemma digits_value_leading (c : ascii) (s : string) (v : N) :
  digits_value 0 (String c s) = Some v -> Ascii.eqb c "0" = false ->
  (10 ^ N.of_nat (String.length s) <= v)%N.
Proof.
  intros H Hc. apply digits_value_cons in H. destruct H as [Hd [w [_ ->]]].
  apply digit_bounds in Hd.
  assert (N_of_ascii c <> 48%N).
  { intros E. apply Ascii.eqb_neq in Hc. apply Hc.
    now apply N_of_ascii_injective. }
  nia.
Qed.

(** An array index has one spelling. *)
Lemma array_index_injective (k1 k2 : string) (n : N) :
  array_index k1 = Some n -> array_index k2 = Some n -> k1 = k2.
Proof.
  assert (Hshape : forall c s m, array_index (String c s) = Some m ->
            digits_value 0 (String c s) = Some m
            /\ (Ascii.eqb c "0" = true -> s = EmptyString)).
  { intros c s m H. unfold array_index in H.
    destruct (Ascii.eqb c "0") eqn:Hc, (String.eqb_spec s EmptyString) as [-> | Hs];
      cbn [andb negb] in H; try discriminate;
      (destruct (digits_value 0 _) as [v |]; [| discriminate]);
      (destruct (v <? 4294967295)%N; [| discriminate]);
      injection H as <-; (split; [reflexivity |]); intros; congruence. }
  destruct k1 as [|c1 s1]; [discriminate |].
  destruct k2 as [|c2 s2]; [discriminate |].
  intros H1 H2.
  apply Hshape in H1. destruct H1 as [V1 Z1].
  apply Hshape in H2. destruct H2 as [V2 Z2].
  assert (Hzero : forall c s, digits_value 0 (String c s) = Some n ->
            (Ascii.eqb c "0" = true -> s = EmptyString) ->
            Ascii.eqb c "0" = true -> n = 0%N /\ String c s = "0").
  { intros c s V Z Hc. rewrite (Z Hc) in *. apply Ascii.eqb_eq in Hc. subst c.
    cbn in V. injection V as <-. split; reflexivity. }
  assert (Hpositive : forall c s, digits_value 0 (String c s) = Some n ->
            Ascii.eqb c "0" = false -> (0 < n)%N).
  { intros c s V Hc. pose proof (digits_value_leading c s n V Hc) as L.
    assert (0 < 10 ^ N.of_nat (String.length s))%N
      by (apply N.neq_0_lt_0, N.pow_nonzero; discriminate).
    lia. }
  assert (D1 : Ascii.eqb c1 "0" = true \/ Ascii.eqb c1 "0" = false)
    by (destruct (Ascii.eqb c1 "0"); auto).
  assert (D2 : Ascii.eqb c2 "0" = true \/ Ascii.eqb c2 "0" = false)
    by (destruct (Ascii.eqb c2 "0"); auto).
  destruct D1 as [Hc1 | Hc1], D2 as [Hc2 | Hc2].
  - destruct (Hzero c1 s1 V1 Z1 Hc1) as [_ ->].
    destruct (Hzero c2 s2 V2 Z2 Hc2) as [_ ->]. reflexivity.
  - destruct (Hzero c1 s1 V1 Z1 Hc1) as [E _].
    pose proof (Hpositive c2 s2 V2 Hc2). lia.
  - destruct (Hzero c2 s2 V2 Z2 Hc2) as [E _].
    pose proof (Hpositive c1 s1 V1 Hc1). lia.
  - apply (digits_value_same_length _ _ n); try assumption.
    cbn [String.length]. f_equal.
    pose proof (digits_value_leading c1 s1 n V1 Hc1) as L1.
    pose proof (digits_value_leading c2 s2 n V2 Hc2) as L2.
    pose proof (digits_value_below _ _ V1) as B1.
    pose proof (digits_value_below _ _ V2) as B2.
    cbn [String.length] in B1, B2.
    rewrite Nat2N.inj_succ, N.pow_succ_r' in B1, B2.
    destruct (Nat.lt_trichotomy (String.length s1) (String.length s2))
      as [Hlt | [Heq | Hgt]]; [exfalso | exact Heq | exfalso].
    + assert (10 ^ N.of_nat (S (String.length s1))
              <= 10 ^ N.of_nat (String.length s2))%N
        by (apply N.pow_le_mono_r; [discriminate | lia]).
      rewrite Nat2N.inj_succ, N.pow_succ_r' in H. lia.
    + assert (10 ^ N.of_nat (S (String.length s2))
              <= 10 ^ N.of_nat (String.length s1))%N
        by (apply N.pow_le_mono_r; [discriminate | lia]).
      rewrite Nat2N.inj_succ, N.pow_succ_r' in H. lia.
Qed.

Lemma keys_in_order_insert_index (n : N) (k : string) (v : value) (o : object) :
  array_index k = Some n -> ~ In k (keys o) ->
  keys_in_order (keys o) -> keys_in_order (keys (insert_index n k v o)).
Proof.
  intros Hk. induction o as [|[k0 v0] o IH]; intros Hnew Horder.
  - cbn. split; [constructor | exact I].
  - cbn [keys map fst keys_in_order] in Horder. destruct Horder as [H0 Horder].
    fold (keys o) in *. cbn [keys map fst In] in Hnew. fold (keys o) in Hnew.
    rewrite Forall_forall in H0.
    cbn [insert_index].
    destruct (array_index k0) as [n0 |] eqn:E0.
    + destruct (N.ltb_spec n0 n) as [Hlt | Hge].
      * cbn [keys map fst keys_in_order]. fold (keys (insert_index n k v o)).
        split; [| apply IH; tauto].
        apply Forall_forall. intros x Hx.
        apply In_keys_insert_index in Hx. destruct Hx as [-> | Hx].
        -- unfold precedes. now rewrite E0, Hk.
        -- now apply H0.
      * cbn [keys map fst keys_in_order]. fold (keys o).
        assert (Hne : n <> n0).
        { intros <-. apply Hnew. left.
          now apply (array_index_injective k0 k n). }
        split; [| split; [now apply Forall_forall | exact Horder]].
        constructor.
        -- unfold precedes. rewrite Hk, E0. lia.
        -- apply Forall_forall. intros x Hx. specialize (H0 x Hx).
           unfold precedes in *. rewrite E0 in H0. rewrite Hk.
           destruct (array_index x); [lia | exact I].
    + cbn [keys map fst keys_in_order]. fold (keys o).
      split; [| split; [now apply Forall_forall | exact Horder]].
      constructor.
      * unfold precedes. now rewrite Hk, E0.
      * apply Forall_forall. intros x Hx. specialize (H0 x Hx).
        unfold precedes in *. rewrite E0 in H0. rewrite Hk.
        destruct (array_index x); [contradiction | exact I].
Qed.

Lemma keys_in_order_snoc (k : string) (ks : list string) :
  array_index k = None ->
  keys_in_order ks -> keys_in_order (ks ++ [k])%list.
Proof.
  intros Hk. induction ks as [|k0 ks IH]; intros H.
  - cbn. split; [constructor | exact I].
  - cbn [keys_in_order app] in *. destruct H as [H0 H]. split; [| now apply IH].
    apply Forall_app. split; [exact H0 |].
    constructor; [| constructor]. unfold precedes. rewrite Hk.
    now destruct (array_index k0).
Qed.

(** Writes keep the own properties in the order of an ordinary object. *)
Lemma ordinary_Set_ (o : object) (k : string) (v : value) :
  ordinary o -> ordinary (Set_ o k v).
Proof.
  intros [Hnd [Hproto Horder]].
  split; [now apply NoDup_keys_Set_ |].
  unfold Set_. destruct (String.eqb_spec k "__proto__") as [-> | Hk];
    [tauto |].
  destruct (has_own k o) eqn:Hown.
  - rewrite keys_replace. tauto.
  - apply has_own_lookup, lookup_not_In in Hown.
    destruct (array_index k) as [n |] eqn:Hindex.
    + split.
      * rewrite In_keys_insert_index. intros [E | H]; [congruence | tauto].
      * now apply keys_in_order_insert_index.
    + unfold keys. rewrite map_app. cbn [map fst]. fold (keys o). split.
      * intros H. apply in_app_or in H. destruct H as [H | [E | []]];
          [tauto | congruence].
      * now apply keys_in_order_snoc.
Qed.

Lemma ordinary_fold_Set_ (source target : object) :
  ordinary target ->
  ordinary (fold_left (fun t kv => Set_ t (fst kv) (snd kv)) source target).
Proof.
  revert target. induction source as [|[k v] source IH]; intros target H.
  - exact H.
  - cbn [fold_left]. apply IH. now apply ordinary_Set_.
Qed.

Lemma ordinary_Object_assign (payload : object) :
  ordinary (Object_assign [] payload).
Proof.
  apply ordinary_fold_Set_. repeat split; [constructor | intros [] ].
Qed.

Lemma ordinary_payment_of (payload : object) (this : LiqPay) :
  ordinary (payment_of payload this).
Proof.
  rewrite payment_of_eq. cbv zeta. do 2 apply ordinary_Set_.
  assert (H : ordinary
            (if negb (ToBoolean (Get (Object_assign [] payload) "language"))
             then Set_ (Object_assign [] payload) "language" (Str Language_UA)
             else Object_assign [] payload)).
  { destruct (negb (ToBoolean (Get (Object_assign [] payload) "language")));
      [apply ordinary_Set_ |]; apply ordinary_Object_assign. }
  destruct (enableSandbox this); [now apply ordinary_Set_ | exact H].
Qed.

Lemma insert_index_last (n : N) (k : string) (v : value) (o : object) :
  Forall (fun k0 => precedes k0 k) (keys o) -> array_index k = Some n ->
  insert_index n k v o = (o ++ [(k, v)])%list.
Proof.
  intros H Hk. induction o as [|[k0 v0] o IH]; [reflexivity |].
  cbn [keys map fst] in H. inversion H as [|? ? H0 H']; subst.
  cbn [insert_index app]. unfold precedes in H0. rewrite Hk in H0.
  destruct (array_index k0) as [n0 |]; [| contradiction].
  apply N.ltb_lt in H0. rewrite H0. f_equal. now apply IH.
Qed.

Lemma keys_in_order_middle (front back : list string) (k : string) :
  keys_in_order (front ++ k :: back)%list ->
  Forall (fun k0 => precedes k0 k) front.
Proof.
  induction front as [|k0 front IH]; intros H; [constructor |].
  cbn [app keys_in_order] in H. destruct H as [H0 H].
  constructor; [| now apply IH].
  rewrite Forall_forall in H0. apply H0, in_or_app. right. now left.
Qed.

Lemma fold_Set_ordinary (source target : object) :
  ordinary (target ++ source)%list ->
  fold_left (fun t kv => Set_ t (fst kv) (snd kv)) source target
  = (target ++ source)%list.
Proof.
  revert target. induction source as [|[k v] source IH]; intros target H.
  - cbn. now rewrite app_nil_r.
  - destruct H as [Hnd [Hproto Horder]].
    unfold keys in Hnd, Hproto, Horder. rewrite map_app in Hnd, Hproto, Horder.
    cbn [map fst] in Hnd, Hproto, Horder. fold (keys target) (keys source) in *.
    assert (Hk : String.eqb k "__proto__" = false).
    { apply String.eqb_neq. intros ->. apply Hproto, in_or_app. right. now left. }
    assert (Hown : has_own k target = false).
    { apply has_own_lookup, lookup_not_In. intros Hin.
      apply NoDup_remove_2 in Hnd. apply Hnd, in_or_app. now left. }
    assert (Hset : Set_ target k v = (target ++ [(k, v)])%list).
    { unfold Set_. rewrite Hk, Hown.
      destruct (array_index k) as [n |] eqn:Hindex; [| reflexivity].
      apply insert_index_last; [| assumption].
      now apply keys_in_order_middle with (keys source). }
    cbn [fold_left fst snd]. rewrite Hset, IH.
    + now rewrite <- app_assoc.
    + rewrite <- app_assoc. cbn [app].
      unfold ordinary, keys. rewrite map_app. cbn [map fst].
      fold (keys target) (keys source). tauto.
Qed.

(** Copying an ordinary object gives the object itself. *)
Lemma Object_assign_ordinary (o : object) :
  ordinary o -> Object_assign [] o = o.
Proof.
  intros H. unfold Object_assign. now rewrite fold_Set_ordinary.
Qed.

Lemma replace_same (k : string) (v : value) (o : object) :
  lookup k o = Some v -> replace k v o = o.
Proof.
  induction o as [|[k0 v0] o IH]; cbn [lookup replace]; [discriminate |].
  destruct (String.eqb_spec k0 k) as [-> | Hne].
  - now intros [= ->].
  - intros H. now rewrite IH.
Qed.

(** Writing the value a property already has changes nothing. *)
Lemma Set_same (o : object) (k : string) (v : value) :
  lookup k o = Some v -> Set_ o k v = o.
Proof.
  intros H. unfold Set_. destruct (String.eqb k "__proto__"); [reflexivity |].
  unfold has_own. rewrite H. now apply replace_same.
Qed.

Lemma payment_of_idempotent (payload : object) (this : LiqPay) :
  payment_of (payment_of payload this) this = payment_of payload this.
Proof.
  rewrite (payment_of_eq (payment_of payload this)). cbv zeta.
  rewrite (Object_assign_ordinary _ (ordinary_payment_of payload this)).
  assert (Hlanguage : ToBoolean (Get (payment_of payload this) "language") = true).
  { rewrite Get_payment_of. cbv zeta.
    cbn [String.eqb Ascii.eqb Bool.eqb andb].
    rewrite andb_false_r, andb_true_r.
    now destruct (ToBoolean (Get (Object_assign [] payload) "language")) eqn:H. }
  rewrite Hlanguage. cbn [negb].
  assert (Hsandbox :
            (if enableSandbox this
             then Set_ (payment_of payload this) "sandbox" (Str "1")
             else payment_of payload this) = payment_of payload this).
  { destruct (enableSandbox this) eqn:Hs; [| reflexivity].
    apply Set_same. rewrite lookup_payment_of, Hs. reflexivity. }
  rewrite Hsandbox.
  rewrite (Set_same _ "version") by (rewrite lookup_payment_of; reflexivity).
  apply Set_same. rewrite lookup_payment_of. reflexivity.
Qed.

(** X9: preparing a prepared payment changes nothing, so [getObjData] gives
    for the payment it prepared from a payload what it gives for the payload:
    the same signed request, or the same error. *)
Theorem preparePayment_idempotent (payload : object) (this : LiqPay) :
  preparePayment (payment_of payload this) this
  = preparePayment payload this
  /\ getObjData (payment_of payload this) this = getObjData payload this.
Proof.
  split.
  - now rewrite !preparePayment_eq, payment_of_idempotent.
  - now rewrite !getObjData_eq, payment_of_idempotent.
Qed.

Lemma json_image_id (o : object) :
  Forall (fun kv => is_json_value (snd kv)) o -> json_image o = o.
Proof.
  induction 1 as [|[k v] o Hv _ IH]; cbn [json_image]; [reflexivity |].
  cbn [snd] in Hv. unfold is_json_value in Hv. now rewrite Hv, IH.
Qed.

(** X12: when every value of the prepared payment is one JSON can hold,
    signing the object the data decodes to gives the signed request again. *)
Theorem decoded_request_signs_again (payload : object) (this : LiqPay)
        (sig : ISignature) (members : object) :
  getObjData payload this = (inr sig, this) ->
  Forall (fun kv => is_json_value (snd kv)) (payment_of payload this) ->
  decode (data sig) = Some members ->
  getObjData members this = (inr sig, this).
Proof.
  intros Hsig Hvalues Hdecode.
  assert (Hdata : data sig
                  = base64 (Buffer_from (JSON_stringify (payment_of payload this)))).
  { rewrite getObjData_eq in Hsig.
    destruct (verifyPaymentData (payment_of payload this) this) as [[e | u] s];
      [discriminate |].
    cbv zeta in Hsig. now injection Hsig as <-. }
  rewrite Hdata, decode_data, (json_image_id _ Hvalues) in Hdecode.
  injection Hdecode as <-.
  now rewrite getObjData_eq, payment_of_idempotent, <- getObjData_eq.
Qed.

(** ** An amount that is not a number of units *)

(** X13: validation reads the amount for its truth value alone: on an
    instance a program can hold, a payload whose amount is infinite, with a
    truthy currency and description, is signed, and the decoded data holds
    null for the amount. *)
Theorem infinite_amount_is_signed (payload : object) (this : LiqPay)
        (negative : bool) :
  reachable this -> is_object payload ->
  lookup "amount" payload = Some (Number (Infinity negative)) ->
  ToBoolean (Get payload "currency") = true ->
  ToBoolean (Get payload "description") = true ->
  exists sig members,
    getObjData payload this = (inr sig, this)
    /\ decode (data sig) = Some members
    /\ lookup "amount" members = Some null.
Proof.
  intros Hreach Hobj Hamount Hcurrency Hdescription.
  assert (Hvalid : valid payload this = true).
  { rewrite valid_eq, verifyPaymentData_eq.
    rewrite Get_payment_version, (version_truthy this Hreach).
    rewrite !(Get_payment_business payload this _ Hobj) by (simpl; tauto).
    rewrite Hcurrency, Hdescription. unfold Get. now rewrite Hamount. }
  rewrite (getObjData_valid payload this Hvalid).
  eexists. eexists. split; [reflexivity |]. cbn [data].
  split; [apply decode_data |].
  rewrite decoded_lookup.
  rewrite (lookup_payment_business payload this "amount" Hobj) by (simpl; tauto).
  now rewrite Hamount.
Qed.

(** ** Whose request it is *)

(** X14: the data of a signed request tells the public key and the version
    of the instance that built it: two signed requests with the same data
    come from instances with the same public key and the same version. *)
Theorem data_tells_configuration (p1 p2 : object) (this1 this2 : LiqPay)
        (s1 s2 : ISignature) :
  getObjData p1 this1 = (inr s1, this1) ->
  getObjData p2 this2 = (inr s2, this2) ->
  data s1 = data s2 ->
  publicKey this1 = publicKey this2 /\ apiVersion this1 = apiVersion this2.
Proof.
  intros H1 H2 Hdata.
  rewrite getObjData_eq in H1, H2.
  destruct (verifyPaymentData (payment_of p1 this1) this1) as [[e1 | u1] t1];
    [discriminate |].
  destruct (verifyPaymentData (payment_of p2 this2) this2) as [[e2 | u2] t2];
    [discriminate |].
  cbv zeta in H1, H2. injection H1 as <-. injection H2 as <-.
  cbn [data] in Hdata. apply data_image in Hdata.
  split.
  - assert (H : lookup "public_key" (json_image (payment_of p1 this1))
                = lookup "public_key" (json_image (payment_of p2 this2)))
      by now rewrite Hdata.
    rewrite !decoded_lookup, !lookup_payment_of in H. cbv zeta in H.
    cbn [String.eqb Ascii.eqb Bool.eqb json_value] in H. congruence.
  - assert (H : lookup "version" (json_image (payment_of p1 this1))
                = lookup "version" (json_image (payment_of p2 this2)))
      by now rewrite Hdata.
    rewrite !decoded_version in H. congruence.
Qed.

End Properties.

(** * The claims and properties at the sample callers

    The theorems above, taken at the decimals: the sample payload asks for
    100.5 units.  The statements of the specification that fail do so at a
    payload given here. *)

#[local] Existing Instance decimals.

Arguments Buffer_from : simpl never.

Arguments JSON_stringify : simpl never.

Arguments SHA1.digest : simpl never.

Arguments base64 : simpl never.

(** ** C1: data and signature *)

(** C1, as the specification states it, fails: the text lists the fields in
    the order of the caller's object, here with the amount first. *)
Lemma field_order_follows_payload :
  valid amount_first shop = true /\ ~ signing_claim amount_first shop.
Proof.
  split; [reflexivity |].
  intros [payment [sig [_ [Hsig [_ [_ Horder]]]]]].
  rewrite getObjData_valid in Hsig by reflexivity.
  injection Hsig as <-. cbn [data] in Horder.
  rewrite decode_data in Horder. cbv -[decimals] in Horder. discriminate Horder.
Qed.

(** The theorem at the sample payload, on an instance in sandbox mode. *)
Lemma getObjData_signs_witness :
  exists sig,
    getObjData (literal sample) sandbox_shop = (inr sig, sandbox_shop)
    /\ option_map keys (decode (data sig))
       = Some ["action"; "amount"; "currency"; "description"; "order_id";
               "language"; "sandbox"; "version"; "public_key"].
Proof.
  destruct (getObjData_signs (literal sample) sandbox_shop eq_refl)
    as [sig [_ [Hsig [_ [_ [_ [_ [_ Horder]]]]]]]].
  exists sig. split; [exact Hsig |]. exact (Horder sample eq_refl).
Defined.

(** ** C2: the first missing field *)

(** The theorem at a payload with neither amount, currency nor description. *)
Lemma getObjData_first_missing_witness :
  getObjData [("action", Str "pay"); ("order_id", Str "order-1")] shop
  = (inl (TypeError "Amount must be specified!"), shop).
Proof.
  apply (proj2 (proj2 (getObjData_first_missing
           [("action", Str "pay"); ("order_id", Str "order-1")] shop))).
  - apply reachable_new.
  - unfold is_object. simpl.
    repeat constructor; simpl; intuition discriminate.
  - reflexivity.
Defined.

(** ** C3: determinism *)

(** The theorem at two instances that differ in how they were configured. *)
Lemma getObjData_deterministic_witness :
  fst (getObjData (literal sample) shop)
  = fst (getObjData (literal sample) (perform (call_setApiVersion "3") shop))
  /\ fst (getObjData (literal sample) (snd (getObjData (literal sample) shop)))
     = fst (getObjData (literal sample) shop).
Proof.
  apply (getObjData_deterministic (literal sample) shop
           (perform (call_setApiVersion "3") shop)); reflexivity.
Defined.

(** ** C4: the sandbox marker *)

(** C4, as the specification states it, fails: with the flag off, a sandbox
    field the payload carries reaches the decoded data. *)
Lemma sandbox_field_passes_through :
  valid conflicting shop = true /\ ~ sandbox_claim conflicting shop.
Proof.
  split; [reflexivity |].
  intros [sig [members [Hsig [Hdecode Hlookup]]]].
  rewrite getObjData_valid in Hsig by reflexivity.
  injection Hsig as <-. cbn [data] in Hdecode.
  rewrite decode_data in Hdecode. injection Hdecode as <-.
  cbv -[decimals] in Hlookup. discriminate Hlookup.
Qed.

(** The theorem at the sample payload, on an instance in sandbox mode. *)
Lemma sandbox_marker_witness :
  exists sig members,
    getObjData (literal sample) sandbox_shop = (inr sig, sandbox_shop)
    /\ decode (data sig) = Some members
    /\ lookup "sandbox" members = Some (Str "1").
Proof.
  destruct (sandbox_marker (literal sample) sandbox_shop eq_refl)
    as [sig [members [Hsig [Hdecode [Hon _]]]]].
  exists sig, members. repeat split; try assumption. now apply Hon.
Defined.

(** ** C5: the version setter *)

(** The theorem at version 3, set after version 2, with two calls in between. *)
Lemma setApiVersion_contract_witness :
  exists configured sig members,
    setApiVersion "3" (perform (call_setApiVersion "2") shop)
    = (inr tt, configured)
    /\ getObjData (literal sample)
         (perform_all [call_getObjData (literal sample);
                       call_getHtmlForm (literal zero_amount)] configured)
       = (inr sig,
          perform_all [call_getObjData (literal sample);
                       call_getHtmlForm (literal zero_amount)] configured)
    /\ decode (data sig) = Some members
    /\ lookup "version" members = Some (Str "3").
Proof.
  destruct (proj2 setApiVersion_contract "3"
              (perform (call_setApiVersion "2") shop)
              [call_getObjData (literal sample);
               call_getHtmlForm (literal zero_amount)]
              (literal sample)
              ltac:(discriminate) eq_refl)
    as [configured [Hset [_ Hdata]]].
  assert (Hconfigured : configured
                        = snd (setApiVersion "3" (perform (call_setApiVersion "2") shop)))
    by now rewrite Hset.
  destruct (Hdata ltac:(now rewrite Hconfigured))
    as [sig [members [Hsig [Hdecode Hversion]]]].
  exists configured, sig, members. repeat split; assumption.
Defined.

(** ** C6: the form *)

(** C6, as the specification states it, fails: the version goes into the
    markup as it is, and one with a double quote in it ends the action
    attribute early and starts a second one. *)
Lemma version_breaks_action_attribute :
  reachable (perform (call_setApiVersion breaking_version) shop)
  /\ valid (literal sample) (perform (call_setApiVersion breaking_version) shop)
     = true
  /\ ~ form_claim (literal sample)
         (perform (call_setApiVersion breaking_version) shop).
Proof.
  split; [apply reachable_call, reachable_new |].
  split; [reflexivity |].
  intros [html [sig [Hhtml [_ [Haction _]]]]].
  assert (E : attributes "action"
                (words match fst (getHtmlForm (literal sample)
                                    (perform (call_setApiVersion breaking_version) shop))
                       with inr h => h | inl _ => EmptyString end)
              = ["https://www.liqpay.ua/api/3"; "x/checkout"])
    by (vm_compute; reflexivity).
  rewrite Hhtml in E. cbn [fst] in E. rewrite E in Haction.
  vm_compute in Haction. discriminate Haction.
Qed.

(** The theorem at the sample payload, on a new instance. *)
Lemma getHtmlForm_markup_witness : form_claim (literal sample) shop.
Proof.
  apply (getHtmlForm_markup (literal sample) shop).
  - apply reachable_new.
  - reflexivity.
  - reflexivity.
Defined.

(** ** C7: normalisation *)

Lemma conflicting_is_object : is_object conflicting.
Proof.
  unfold is_object. simpl. repeat constructor; simpl; intuition discriminate.
Qed.

(** The theorem at a payload without language, at one with a language, and at
    one that carries a version and a public key of its own. *)
Lemma preparePayment_normalisation_witness :
  normalisation_claim (literal sample) shop
  /\ Get (payment_of (literal english) shop) "language" = Str "en"
  /\ Get (payment_of conflicting shop) "version" = Str "3"
  /\ Get (payment_of conflicting shop) "public_key" = Str "public".
Proof.
  split; [| split; [| split]].
  - apply (preparePayment_normalisation (literal sample) shop).
    + apply literal_is_object.
    + left. reflexivity.
  - apply (proj1 (proj2 (proj1 (preparePayment_normalisation
             (literal english) shop (literal_is_object english)
             (or_intror eq_refl))))).
    discriminate.
  - apply (proj1 (proj2 (proj2 (proj1 (preparePayment_normalisation
             conflicting shop conflicting_is_object (or_introl eq_refl)))))).
  - apply (proj2 (proj2 (proj2 (proj1 (preparePayment_normalisation
             conflicting shop conflicting_is_object (or_introl eq_refl)))))).
Defined.

(** ** C8: the configuration across calls *)

(** C8, as the specification states it, fails: the version is not immutable,
    [setApiVersion] replaces it on a constructed instance. *)
Lemma configuration_not_immutable :
  ~ immutable_claim (call_setApiVersion "4") (constructor "private" "public" false).
Proof.
  unfold immutable_claim. intros [_ [_ [_ H]]]. discriminate H.
Qed.

(** The theorem at an instance in sandbox mode, a run of two calls and a call
    of each kind. *)
Lemma configuration_frame_witness :
  enableSandbox
    (perform_all [call_setApiVersion "4"; call_getObjData (literal sample)]
       (constructor "private" "public" true)) = true
  /\ apiVersion (perform (call_setApiVersion "4")
                   (constructor "private" "public" true)) = "4"
  /\ perform (call_getObjData []) (constructor "private" "public" true)
     = constructor "private" "public" true.
Proof.
  split; [| split].
  - exact (proj2 (proj2 (proj1 (proj2
             (configuration_frame "private" "public" true
                [call_setApiVersion "4"; call_getObjData (literal sample)]
                (call_getObjData []) shop))))).
  - exact (proj2 (proj2 (proj2 (proj2 (proj2 (proj2 (proj2 (proj2
             (configuration_frame "private" "public" true []
                (call_setApiVersion "4")
                (constructor "private" "public" true)))))))))
             "4" eq_refl).
  - exact (proj1 (proj2 (proj2 (proj2 (proj2 (proj2 (proj2 (proj2
             (configuration_frame "private" "public" true []
                (call_getObjData [])
                (constructor "private" "public" true)))))))))
             eq_refl).
Defined.

(** ** C9: different payloads, different signatures *)

(** C9, as the specification states it, fails: a payload without a language
    and the same payload with the default language differ in one field and
    get the same signature. *)
Lemma default_language_same_signature :
  is_object (literal sample) /\ is_object (literal ukrainian)
  /\ valid (literal sample) shop = true
  /\ valid (literal ukrainian) shop = true
  /\ ~ avalanche_claim (literal sample) (literal ukrainian) shop.
Proof.
  split; [apply literal_is_object |].
  split; [apply literal_is_object |].
  split; [reflexivity |]. split; [reflexivity |].
  intros H.
  assert (Hdiffer : differ_in_exactly_one_field (literal sample) (literal ukrainian)).
  { exists "language". split; [discriminate |].
    intros k' Hk'. cbn [literal sample ukrainian language app lookup
                         action amount currency description order_id].
    repeat match goal with
           | |- context [String.eqb ?a k'] =>
               destruct (String.eqb_spec a k') as [? | ?]; [reflexivity |]
           end.
    destruct (String.eqb_spec "language" k'); [congruence | reflexivity]. }
  refine (H Hdiffer _ _ (getObjData_valid (literal sample) shop eq_refl)
            (getObjData_valid (literal ukrainian) shop eq_refl) _).
  cbn [signature data].
  assert (E : payment_of (literal sample) shop = payment_of (literal ukrainian) shop)
    by (cbv -[decimals]; reflexivity).
  now rewrite E.
Qed.

(** The theorem at two payloads that differ in the amount, 100.5 and 200. *)
Lemma signature_separates_witness :
  exists s1 s2,
    getObjData (literal sample) shop = (inr s1, shop)
    /\ getObjData (literal dearer) shop = (inr s2, shop)
    /\ data s1 <> data s2
    /\ signed_text shop (data s1) <> signed_text shop (data s2).
Proof.
  eexists. eexists.
  split; [apply (getObjData_valid (literal sample) shop eq_refl) |].
  split; [apply (getObjData_valid (literal dearer) shop eq_refl) |].
  pose proof (signature_separates
                (literal sample) (literal dearer) shop _ _
                (getObjData_valid (literal sample) shop eq_refl)
                (getObjData_valid (literal dearer) shop eq_refl))
    as [_ [_ [_ [Htext [Hfield _]]]]].
  assert (Hdata := Hfield "amount" (literal_is_object sample)
                     (literal_is_object dearer)
                     (or_intror (or_introl eq_refl))).
  split; [| apply Htext]; apply Hdata; discriminate.
Defined.

Lemma length_dashes (n : nat) : String.length (dashes n) = S n.
Proof. induction n as [|n IH]; simpl; [reflexivity | now rewrite IH]. Qed.

Lemma described_valid (n : nat) :
  valid (literal (described (dashes n))) shop = true.
Proof. destruct n; reflexivity. Qed.

(** The digests are finitely many and the descriptions are not: it cannot be
    that every change of the description alone changes the signature. *)
Lemma descriptions_collide :
  ~ (forall d1 d2 s1 s2,
       d1 <> d2 ->
       getObjData (literal (described d1)) shop = (inr s1, shop) ->
       getObjData (literal (described d2)) shop = (inr s2, shop) ->
       signature s1 <> signature s2).
Proof.
  intros Hdiffer.
  set (sign := fun n =>
         SHA1.digest (Buffer_from (signed_text shop
           (base64 (Buffer_from (JSON_stringify
              (payment_of (literal (described (dashes n))) shop))))))).
  assert (Hinj : forall i j, sign i = sign j -> i = j).
  { intros i j Hij.
    destruct (Nat.eq_dec i j) as [-> | Hne]; [reflexivity | exfalso].
    refine (Hdiffer (dashes i) (dashes j) _ _ _
              (getObjData_valid _ _ (described_valid i))
              (getObjData_valid _ _ (described_valid j)) _).
    - intros E. apply (f_equal String.length) in E.
      rewrite !length_dashes in E. lia.
    - cbn [signature data]. fold (sign i) (sign j). now rewrite Hij. }
  remember (byte_lists 20) as digests eqn:Hdigests.
  assert (Hle : (List.length (map sign (seq 0 (S (List.length digests))))
                 <= List.length digests)%nat).
  { apply NoDup_incl_length.
    - apply NoDup_map_NoDup_ForallPairs; [| apply seq_NoDup].
      intros i j _ _. apply Hinj.
    - intros b Hb. apply in_map_iff in Hb. destruct Hb as [n [<- _]].
      subst digests. rewrite <- (length_digest
        (Buffer_from (signed_text shop
           (base64 (Buffer_from (JSON_stringify
              (payment_of (literal (described (dashes n))) shop))))))).
      apply In_byte_lists, digest_bytes. }
  rewrite length_map, length_seq in Hle. lia.
Qed.

(** ** C10: falsy values *)

(** The theorem at an amount of 0 and at an empty description. *)
Lemma getObjData_falsy_is_missing_witness :
  getObjData (literal zero_amount) shop
  = (inl (TypeError "Amount must be specified!"), shop)
  /\ getObjData (literal blank_description) shop
     = (inl (TypeError "Description must be specified!"), shop).
Proof.
  split.
  - apply (proj1 (proj2 (getObjData_falsy_is_missing (literal zero_amount) shop
             (reachable_new _ _ _) (literal_is_object zero_amount)))).
    reflexivity.
  - apply (proj2 (proj2 (proj2 (getObjData_falsy_is_missing
             (literal blank_description) shop
             (reachable_new _ _ _) (literal_is_object blank_description)))));
      reflexivity.
Defined.

(** ** The shape of data and signature *)

(** The theorem at the sample payload. *)
Lemma getObjData_returns_base64_witness :
  exists sig,
    getObjData (literal sample) shop = (inr sig, shop)
    /\ all_chars is_base64_char (data sig) = true
    /\ String.length (signature sig) = 28%nat.
Proof.
  eexists. split; [apply (getObjData_valid (literal sample) shop eq_refl) |].
  destruct (getObjData_returns_base64 (literal sample) shop _
              (getObjData_valid (literal sample) shop eq_refl))
    as [Hdata [_ [_ [Hlength _]]]].
  split; assumption.
Defined.

(** ** What validation reads *)

(** The theorem at a payload without action and order identifier. *)
Lemma valid_by_three_fields_witness : valid bare shop = true.
Proof.
  rewrite (valid_by_three_fields bare shop).
  - reflexivity.
  - apply reachable_new.
  - unfold is_object. simpl. repeat constructor; simpl; intuition discriminate.
Defined.

(** ** What the builder passes on *)

(** The theorem at a field the interface does not declare. *)
Lemma preparePayment_passes_on_witness :
  lookup "result_url" (payment_of with_result_url shop)
  = Some (Str "https://shop.example/thanks").
Proof.
  refine (proj1 (preparePayment_passes_on with_result_url shop "result_url"
                   _ eq_refl eq_refl)).
  unfold is_object. simpl. repeat constructor; simpl; intuition discriminate.
Defined.

(** The theorem at the sample payload. *)
Lemma decoded_identity_witness :
  exists sig members,
    getObjData (literal sample) shop = (inr sig, shop)
    /\ decode (data sig) = Some members
    /\ lookup "public_key" members = Some (Str "public")
    /\ lookup "language" members = Some (Str Language_UA).
Proof.
  destruct (decoded_identity (literal sample) shop eq_refl)
    as [sig [members [Hsig [Hdecode [Hkey [_ [_ Hlanguage]]]]]]].
  exists sig, members. repeat split; try assumption. now apply Hlanguage.
Defined.

(** ** Where the private key goes *)

(** The theorem at two instances with different private keys. *)
Lemma data_ignores_private_key_witness :
  valid (literal sample) shop = valid (literal sample) rival.
Proof.
  exact (proj1 (data_ignores_private_key (literal sample) shop rival
                  eq_refl eq_refl eq_refl)).
Defined.

(** ** The rest of the form *)

(** The theorem at the sample payload, on a new instance. *)
Lemma getHtmlForm_attributes_witness :
  exists html,
    getHtmlForm (literal sample) shop = (inr html, shop)
    /\ attributes "method" (words html) = ["POST"].
Proof.
  destruct (getHtmlForm_attributes (literal sample) shop
              (reachable_new _ _ _) eq_refl eq_refl)
    as [html [Hhtml [Hmethod _]]].
  exists html. split; assumption.
Defined.

(** ** Preparing twice *)

(** The theorem at the sample payload. *)
Lemma decoded_request_signs_again_witness :
  exists sig members,
    getObjData (literal sample) shop = (inr sig, shop)
    /\ decode (data sig) = Some members
    /\ getObjData members shop = (inr sig, shop).
Proof.
  eexists. eexists.
  split; [apply (getObjData_valid (literal sample) shop eq_refl) |].
  split; [apply decode_data |].
  apply (decoded_request_signs_again (literal sample) shop).
  - apply (getObjData_valid (literal sample) shop eq_refl).
  - repeat constructor.
  - apply decode_data.
Defined.

(** ** An amount that is not a number of units *)

(** The theorem at a payload of the declared fields. *)
Lemma infinite_amount_is_signed_witness :
  exists sig members,
    getObjData (literal priceless) shop = (inr sig, shop)
    /\ decode (data sig) = Some members
    /\ lookup "amount" members = Some null.
Proof.
  apply (infinite_amount_is_signed (literal priceless) shop false).
  - apply reachable_new.
  - apply literal_is_object.
  - reflexivity.
  - reflexivity.
  - reflexivity.
Defined.

(** ** Whose request it is *)

(** The theorem at two instances that share the public key. *)
Lemma data_tells_configuration_witness :
  publicKey shop = publicKey rival /\ apiVersion shop = apiVersion rival.
Proof.
  apply (data_tells_configuration (literal sample) (literal sample) shop rival
           _ _
           (getObjData_valid (literal sample) shop eq_refl)
           (getObjData_valid (literal sample) rival eq_refl)).
  cbn [data]. do 3 f_equal.
Defined.

(** ** Amounts as the data spells them *)

(** X15: [JSON.stringify] spells an amount as Number::toString does: with a
    decimal point for 100.5, -2.5 and 0.000001, with no point for 200, with an
    exponent for 10^21 and 10^-7, and as zero for minus zero.  The data of a
    payment of 10^21 decodes to that very amount; the signed requests for
    100.5 units in sandbox mode and for 10^21 units are the ones the
    program returns for the keys [private] and [public]. *)
Theorem amounts_as_the_data_spells_them :
  SerializeJSONProperty (Number (Finite hundred_and_half)) = Some "100.5"
  /\ SerializeJSONProperty (Number (Finite minus_two_and_half)) = Some "-2.5"
  /\ SerializeJSONProperty (Number (Finite millionth)) = Some "0.000001"
  /\ SerializeJSONProperty (Number (Finite two_hundred)) = Some "200"
  /\ SerializeJSONProperty (Number (Finite sextillion)) = Some "1e+21"
  /\ SerializeJSONProperty (Number (Finite tenth_of_millionth)) = Some "1e-7"
  /\ SerializeJSONProperty (Number NegZero) = Some "0"
  /\ (exists sig members,
        getObjData (literal vast) shop = (inr sig, shop)
        /\ decode (data sig) = Some members
        /\ lookup "amount" members = Some (Number (Finite sextillion)))
  /\ getObjData (literal sample) sandbox_shop
     = (inr {| data :=
                 "eyJhY3Rpb24iOiJwYXkiLCJhbW91bnQiOjEwMC41LCJjdXJyZW5jeSI6IlVBSCIsImRlc2NyaXB0aW9uIjoiT3JkZXIgMSIsIm9yZGVyX2lkIjoib3JkZXItMSIsImxhbmd1YWdlIjoidWsiLCJzYW5kYm94IjoiMSIsInZlcnNpb24iOiIzIiwicHVibGljX2tleSI6InB1YmxpYyJ9";
               signature := "727uha99upK8NJ2JOCBTO5cd/Eo=" |},
        sandbox_shop)
  /\ getObjData (literal vast) shop
     = (inr {| data :=
                 "eyJhY3Rpb24iOiJwYXkiLCJhbW91bnQiOjFlKzIxLCJjdXJyZW5jeSI6IlVBSCIsImRlc2NyaXB0aW9uIjoiT3JkZXIgMSIsIm9yZGVyX2lkIjoib3JkZXItMSIsImxhbmd1YWdlIjoidWsiLCJ2ZXJzaW9uIjoiMyIsInB1YmxpY19rZXkiOiJwdWJsaWMifQ==";
               signature := "JGWTHnHrNtBzh7Lxy9mkLqWrc3c=" |},
        shop).
Proof.
  repeat (split; [reflexivity |]).
  split.
  { eexists. eexists.
    split; [apply (getObjData_valid (literal vast) shop eq_refl) |].
    cbn [data]. split; [apply decode_data | reflexivity]. }
  split; vm_compute; reflexivity.
Qed.
